(** * A shallow embedding of the Feedly developer client (src/index.js)

  The client is one JavaScript class, [Feedly].  Its hidden state
  ([this[INTERNALS]]) holds the merged construction options and the last
  HTTP response.  Every method is an [async] function built from promise
  chains ([then], [catch]) around one call to [fetch].

  The embedding follows the class method by method:
  - JavaScript values, [ToString], truthiness and the few String methods
    the class calls live in [Module Js];
  - a promise chain is a computation over the client state and a trace of
    its effects (the [fetch] calls and the console output) that settles
    either resolved or rejected;
  - the network is a parameter: the [n]-th call of [fetch] settles the
    way [net n] says.  One operation runs to completion before the next
    begins; interleavings of concurrent calls are not modelled.  The one
    promise the class does not await, the refresh its constructor may
    start, is modelled in two steps: the call made, and its settling. *)

From Stdlib Require Import String Ascii List ZArith Lia Bool DecimalString.
Import ListNotations.
Open Scope string_scope.

(* ================================================================== *)
(** ** JavaScript values and primitives *)
(* ================================================================== *)

Module Js.

(** The values that reach the client: what [JSON.parse] produces, plus
    [undefined].  [VNum z] is the number [JSON.parse] reads from the integer
    literal [z], that is the double nearest to [z]; numbers with a fraction
    are left out.  Strings are sequences of 8-bit code units, which is what
    Node makes of the bytes of a header. *)
#[warnings="-register-all"]
Inductive Value : Type :=
| VUndefined
| VNull
| VBool (b : bool)
| VNum (z : Z)
| VStr (s : string)
| VArr (items : list Value)
| VObj (fields : list (string * Value)).

(** Errors a promise can reject with, or a statement can throw: the two
    the class creates itself ([new TypeError(...)], [new Error(...)]), the
    two TypeErrors of the engine it can run into, and the two rejections of
    [fetch] and [response.json()]. *)
Inductive JsError : Type :=
| TypeError (message : string)
| Error (message : string)
| CannotReadProperty (name : string) (target : Value)
    (* [x.name] with [x] undefined or null *)
| CannotDestructure (target : Value)
    (* [({response, body}) => ...] applied to undefined *)
| FetchError (message : string)
    (* [fetch] rejected: no response *)
| InvalidJson.
    (* [response.json()] rejected: the body is not JSON *)

(** The result of evaluating a statement or expression that may throw. *)
Inductive Completion (A : Type) : Type :=
| Normal (a : A)
| Throw (e : JsError).
Arguments Normal {A} a.
Arguments Throw {A} e.

(** Decimal rendering of an integer. *)
Definition decimal (z : Z) : string := NilZero.string_of_int (Z.to_int z).

(** *** Numbers are doubles *)

(** The double nearest to the integer [a >= 0], ties going to the even
    mantissa of 53 bits; [None] past the largest double. *)
Definition nearest_double (a : Z) : option Z :=
  if (a <? 2 ^ 53)%Z then Some a
  else
    let e := (Z.log2 a - 52)%Z in
    let q := Z.shiftr a e in
    let r := Z.land a (Z.ones e) in
    let half := Z.shiftl 1 (e - 1) in
    let q' := if (half <? r)%Z || ((r =? half)%Z && Z.odd q)
              then (q + 1)%Z else q in
    let m := Z.shiftl q' e in
    if (2 ^ 1024 <=? m)%Z then None else Some m.

Definition digit_count (a : Z) : Z := Z.of_nat (String.length (decimal a)).

(** [Number::toString] looks for the fewest digits [s] and the exponent [n]
    such that [s * 10^(n - k)], [k] being the number of digits of [s], reads
    back as the double [v]. *)
Definition reads_as (v s n : Z) : bool :=
  let k := digit_count s in
  (0 <? s)%Z && (k <=? n)%Z
  && match nearest_double (s * 10 ^ (n - k)) with
     | Some m => (m =? v)%Z
     | None => false
     end.

(** The pairs [(s, n)] with [s] of [k] digits that read back as [v]. *)
Definition candidates (v k : Z) : list (Z * Z) :=
  let d := digit_count v in
  flat_map (fun n =>
              let f := (v / 10 ^ (n - k))%Z in
              filter (fun sn => (digit_count (fst sn) =? k)%Z
                                && reads_as v (fst sn) (snd sn))
                     [(f, n); ((f + 1)%Z, n)])
           [d; (d + 1)%Z].

Definition distance (v : Z) (sn : Z * Z) : Z :=
  Z.abs (fst sn * 10 ^ (snd sn - digit_count (fst sn)) - v).

(** Of two candidates the closer to [v], the even one when they tie. *)
Definition closer (v : Z) (a b : Z * Z) : Z * Z :=
  if (distance v b <? distance v a)%Z then b
  else if (distance v b =? distance v a)%Z
          && Z.even (fst b) && negb (Z.even (fst a))
       then b
       else a.

Fixpoint shortest_from (v k : Z) (fuel : nat) : Z * Z :=
  match fuel with
  | O => (v, digit_count v)
  | S fuel =>
      match candidates v k with
      | [] => shortest_from v (k + 1) fuel
      | c :: cs => fold_left (closer v) cs c
      end
  end.

(** Seventeen digits tell any two doubles apart. *)
Definition shortest (v : Z) : Z * Z := shortest_from v 1 17.

Fixpoint zeros (n : nat) : string :=
  match n with
  | O => EmptyString
  | S n => String "0" (zeros n)
  end.

(** The digits followed by zeros up to 21 digits, the exponent form
    beyond. *)
Definition render (sn : Z * Z) : string :=
  let s := decimal (fst sn) in
  let n := snd sn in
  let k := Z.of_nat (String.length s) in
  if (n <=? 21)%Z then s ++ zeros (Z.to_nat (n - k))
  else match s with
       | String d EmptyString =>
           String d EmptyString ++ "e+" ++ decimal (n - 1)
       | String d rest =>
           String d EmptyString ++ "." ++ rest ++ "e+" ++ decimal (n - 1)
       | EmptyString => EmptyString
       end.

(** [Number::toString] of the double nearest to [z].  Below 2^53 every
    integer is a double and its digits are the fewest that read back. *)
Definition Number_toString (z : Z) : string :=
  let a := Z.abs z in
  if (a <? 2 ^ 53)%Z then decimal z
  else
    (if (z <? 0)%Z then "-" else EmptyString)
    ++ match nearest_double a with
       | None => "Infinity"
       | Some v => render (shortest v)
       end.

Fixpoint join (sep : string) (parts : list string) : string :=
  match parts with
  | [] => EmptyString
  | [p] => p
  | p :: rest => p ++ sep ++ join sep rest
  end.

(** [ToString]: the conversion behind [+] with a string and behind
    template literals. *)
Fixpoint ToString (v : Value) : string :=
  match v with
  | VUndefined => "undefined"
  | VNull => "null"
  | VBool true => "true"
  | VBool false => "false"
  | VNum z => Number_toString z
  | VStr s => s
  | VArr items =>
      join "," (map (fun x => match x with
                              | VUndefined | VNull => EmptyString
                              | _ => ToString x
                              end) items)
  | VObj _ => "[object Object]"
  end.

(** [ToBoolean]: what [!v] and [if (v)] test. *)
Definition truthy (v : Value) : bool :=
  match v with
  | VUndefined | VNull => false
  | VBool b => b
  | VNum z => negb (z =? 0)%Z
  | VStr s => negb (s =? EmptyString)
  | VArr _ | VObj _ => true
  end.

(** A [?string]: [None] is [null]. *)
Definition nullable (s : option string) : Value :=
  match s with
  | Some s => VStr s
  | None => VNull
  end.

(** [String.prototype.substring(start, end)]: an index below zero counts
    as zero, one above the length as the length, and the two are swapped
    when [start] is the larger. *)
Definition clamp (len : nat) (i : Z) : nat :=
  Z.to_nat (Z.min (Z.max i 0) (Z.of_nat len)).

Definition substring2 (s : string) (start stop : Z) : string :=
  let a := clamp (String.length s) start in
  let b := clamp (String.length s) stop in
  String.substring (Nat.min a b) (Nat.max a b - Nat.min a b) s.

(** [substring(start)]: [end] defaults to the length. *)
Definition substring1 (s : string) (start : Z) : string :=
  substring2 s start (Z.of_nat (String.length s)).

(** Own properties of an object, in order. *)
Fixpoint lookup (key : string) (fields : list (string * Value)) : option Value :=
  match fields with
  | [] => None
  | (k, v) :: rest => if k =? key then Some v else lookup key rest
  end.

(** [obj[key] = v]: an existing property keeps its place. *)
Fixpoint assign (key : string) (v : Value) (fields : list (string * Value))
  : list (string * Value) :=
  match fields with
  | [] => [(key, v)]
  | (k, old) :: rest =>
      if k =? key then (k, v) :: rest else (k, old) :: assign key v rest
  end.

(** [x.access_token]: throws on [undefined] and [null]; an object
    answers with its property; nothing else has one. *)
Definition get_access_token (x : Value) : Completion Value :=
  match x with
  | VUndefined | VNull => Throw (CannotReadProperty "access_token" x)
  | VObj fields =>
      Normal (match lookup "access_token" fields with
              | Some v => v
              | None => VUndefined
              end)
  | _ => Normal VUndefined
  end.

(** [x.length]: strings and arrays have one, an object may carry a
    property of that name. *)
Definition get_length (x : Value) : Completion Value :=
  match x with
  | VUndefined | VNull => Throw (CannotReadProperty "length" x)
  | VStr s => Normal (VNum (Z.of_nat (String.length s)))
  | VArr items => Normal (VNum (Z.of_nat (List.length items)))
  | VObj fields =>
      Normal (match lookup "length" fields with
              | Some v => v
              | None => VUndefined
              end)
  | _ => Normal VUndefined
  end.

Definition index_keys {A} (f : A -> Value) (xs : list A)
  : list (string * Value) :=
  map (fun '(i, x) => (decimal (Z.of_nat i), f x))
      (combine (seq 0 (List.length xs)) xs).

(** [{...x}]: the own enumerable properties of [x]. *)
Definition spread (x : Value) : list (string * Value) :=
  match x with
  | VObj fields => fields
  | VArr items => index_keys (fun v => v) items
  | VStr s => index_keys (fun c => VStr (String c EmptyString)) (list_ascii_of_string s)
  | _ => []
  end.

(** *** [parseInt(x, 10)] *)

(** A result of [parseInt]: not a number, an integer that is a double
    (zero being the positive zero), the negative zero, or an infinity. *)
Inductive Number : Type :=
| NaN
| Int (z : Z)
| NegativeZero
| Infinity (negative : bool).

(** The white space among the 8-bit code units: tab, line feed, vertical
    tab, form feed, carriage return, space and the no-break space. *)
Definition is_space (c : ascii) : bool :=
  let n := nat_of_ascii c in
  ((9 <=? n) && (n <=? 13) || (n =? 32) || (n =? 160))%nat.

Definition digit_of (c : ascii) : option Z :=
  let n := nat_of_ascii c in
  if ((48 <=? n) && (n <=? 57))%nat then Some (Z.of_nat (n - 48)) else None.

Fixpoint skip_spaces (s : string) : string :=
  match s with
  | String c rest => if is_space c then skip_spaces rest else s
  | EmptyString => s
  end.

(** The value of the longest prefix of digits, [acc] being the value of
    the digits read so far. *)
Fixpoint digits (acc : Z) (s : string) : Z :=
  match s with
  | String c rest =>
      match digit_of c with
      | Some d => digits (10 * acc + d) rest
      | None => acc
      end
  | EmptyString => acc
  end.

Definition starts_with_digit (s : string) : bool :=
  match s with
  | String c _ => match digit_of c with Some _ => true | None => false end
  | EmptyString => false
  end.

(** The number of value [a >= 0] under a sign: the nearest double. *)
Definition Number_of (negative : bool) (a : Z) : Number :=
  match nearest_double a with
  | None => Infinity negative
  | Some m =>
      if negative
      then if (m =? 0)%Z then NegativeZero else Int (- m)
      else Int m
  end.

Definition unsigned10 (negative : bool) (s : string) : Number :=
  if starts_with_digit s then Number_of negative (digits 0 s) else NaN.

(** [parseInt(x, 10)]: [x] goes through [ToString]; leading white space
    and one sign are skipped; the longest run of digits is read in base 10
    and rounded to the nearest double; no digit at all gives [NaN]. *)
Definition parseInt10 (x : Value) : Number :=
  match skip_spaces (ToString x) with
  | String "-" rest => unsigned10 true rest
  | String "+" rest => unsigned10 false rest
  | s => unsigned10 false s
  end.

End Js.
Import Js.

(* ================================================================== *)
(** ** The data the client handles *)
(* ================================================================== *)

(** The [Headers] of a response: [get] ignores the case of the name, joins
    the values of a repeated header and answers [null] for an absent one. *)
Module Headers.

Definition t : Type := list (string * string).

Definition lower_ascii (c : ascii) : ascii :=
  let n := nat_of_ascii c in
  if ((65 <=? n) && (n <=? 90))%nat then ascii_of_nat (n + 32) else c.

Fixpoint lower (s : string) : string :=
  match s with
  | String c rest => String (lower_ascii c) (lower rest)
  | EmptyString => EmptyString
  end.

Definition values (h : t) (name : string) : list string :=
  map snd (filter (fun '(k, _) => lower k =? lower name) h).

Definition get (h : t) (name : string) : Value :=
  match values h name with
  | [] => VNull
  | vs => VStr (join ", " vs)
  end.

End Headers.

(** The raw response of [fetch].  [parsed] is what [response.json()]
    resolves with; [None] when the body is not JSON and it rejects. *)
Module Response.

Record t : Type := {
  status : Z;
  headers : Headers.t;
  parsed : option Value
}.

End Response.

(** The second argument of [fetch]; [None] is a key the object lacks. *)
Module RequestInit.

Inductive Body : Type :=
| Text (s : string)
| JSON_stringify (v : Value).

Record t : Type := {
  method : option string;
  headers : option (list (string * string));
  body : option Body
}.

(** [{}] *)
Definition empty : t := {| method := None; headers := None; body := None |}.

Definition override {A} (target source : option A) : option A :=
  match source with
  | Some x => Some x
  | None => target
  end.

(** [Object.assign(target, source)]: every key of [source] replaces the
    key of that name in [target]; the values are not merged. *)
Definition Object_assign (target source : t) : t :=
  {| method := override (method target) (method source);
     headers := override (headers target) (headers source);
     body := override (body target) (body source) |}.

End RequestInit.

(** [@typedef FeedlyResponse] *)
Record FeedlyResponse : Type := {
  response : Response.t;
  body : Value
}.

(** [@typedef FeedlyInit]: the argument of the constructor.  [None] is a
    key left out (or, for the two tokens, [null]). *)
Module FeedlyInit.

Record t : Type := {
  baseUrl : option string;
  accessToken : option string;
  refreshToken : option string;
  refreshTokenInstant : bool
}.

End FeedlyInit.

(** [this[INTERNALS].options]: the defaults overridden by the argument.
    The access token is a [?string] at construction;
    [refreshAuthToken] later stores what the response body carries. *)
Module Options.

Record t : Type := {
  baseUrl : string;
  accessToken : Value;
  refreshToken : Value;
  refreshTokenInstant : bool
}.

Definition with_baseUrl (s : string) (o : t) : t :=
  {| baseUrl := s;
     accessToken := accessToken o;
     refreshToken := refreshToken o;
     refreshTokenInstant := refreshTokenInstant o |}.

Definition with_accessToken (v : Value) (o : t) : t :=
  {| baseUrl := baseUrl o;
     accessToken := v;
     refreshToken := refreshToken o;
     refreshTokenInstant := refreshTokenInstant o |}.

(** [Object.assign({baseUrl: ..., accessToken: null, refreshToken: null,
    refreshTokenInstant: false}, options)] *)
Definition Object_assign (options : FeedlyInit.t) : t :=
  {| baseUrl := match FeedlyInit.baseUrl options with
                | Some u => u
                | None => "https://cloud.feedly.com"
                end;
     accessToken := nullable (FeedlyInit.accessToken options);
     refreshToken := nullable (FeedlyInit.refreshToken options);
     refreshTokenInstant := FeedlyInit.refreshTokenInstant options |}.

End Options.

(** [this[INTERNALS]] *)
Module Internals.

Record t : Type := {
  options : Options.t;
  lastResponse : option Response.t
}.

End Internals.

Definition Feedly : Type := Internals.t.

(** The getters of the class. *)
Definition baseUrl (this : Feedly) : string :=
  Options.baseUrl (Internals.options this).

Definition accessToken (this : Feedly) : Value :=
  Options.accessToken (Internals.options this).

Definition refreshToken (this : Feedly) : Value :=
  Options.refreshToken (Internals.options this).

Definition lastResponse (this : Feedly) : option Response.t :=
  Internals.lastResponse this.

(** The three assignments the class makes to its internals. *)
Definition set_baseUrl (s : string) (this : Feedly) : Feedly :=
  {| Internals.options := Options.with_baseUrl s (Internals.options this);
     Internals.lastResponse := Internals.lastResponse this |}.

Definition set_accessToken (v : Value) (this : Feedly) : Feedly :=
  {| Internals.options := Options.with_accessToken v (Internals.options this);
     Internals.lastResponse := Internals.lastResponse this |}.

Definition set_lastResponse (r : Response.t) (this : Feedly) : Feedly :=
  {| Internals.options := Internals.options this;
     Internals.lastResponse := Some r |}.

(* ================================================================== *)
(** ** Effects: the network, the console, promises *)
(* ================================================================== *)

(** How one call of [fetch] settles. *)
Inductive FetchOutcome : Type :=
| Responds (r : Response.t)
| Fails (message : string).

(** What the client does to the outside, in order. *)
Inductive Event : Type :=
| Fetch (url : string) (init : RequestInit.t) (outcome : FetchOutcome)
| ConsoleInfo (format : string) (arg : Value)
| ConsoleError (prefix : string) (error : JsError).
    (* [console.error(`${prefix}: ${error}`)] *)

Record World : Type := {
  this : Feedly;
  trace : list Event
}.

Definition fresh (self : Feedly) : World := {| this := self; trace := [] |}.

(** A settled promise. *)
Inductive Settled (A : Type) : Type :=
| Resolved (a : A)
| Rejected (e : JsError).
Arguments Resolved {A} a.
Arguments Rejected {A} e.

(** A promise-returning computation. *)
Definition Async (A : Type) : Type := World -> World * Settled A.

Definition resolve {A} (a : A) : Async A := fun w => (w, Resolved a).

Definition reject {A} (e : JsError) : Async A := fun w => (w, Rejected e).

(** [p.then(f)], and [await p] followed by the rest of the function. *)
Definition then_ {A B} (p : Async A) (f : A -> Async B) : Async B :=
  fun w =>
    match p w with
    | (w', Resolved a) => f a w'
    | (w', Rejected e) => (w', Rejected e)
    end.

(** [p.catch(h)] *)
Definition catch_ {A} (p : Async A) (h : JsError -> Async A) : Async A :=
  fun w =>
    match p w with
    | (w', Resolved a) => (w', Resolved a)
    | (w', Rejected e) => h e w'
    end.

Notation "x <- p ;; k" := (then_ p (fun x => k))
  (at level 61, p at next level, right associativity).

(** A statement that may throw, inside a callback or an async function. *)
Definition eval {A} (c : Completion A) : Async A :=
  match c with
  | Normal a => resolve a
  | Throw e => reject e
  end.

Definition read : Async Feedly := fun w => (w, Resolved (this w)).

Definition write (f : Feedly -> Feedly) : Async unit :=
  fun w => ({| this := f (this w); trace := trace w |}, Resolved tt).

Definition emit (e : Event) : Async unit :=
  fun w => ({| this := this w; trace := trace w ++ [e] |}, Resolved tt).

(** A function that returns nothing returns [undefined]. *)
Class Undefined (A : Type) : Type := undefined : A.
#[global] Instance Undefined_unit : Undefined unit := tt.
#[global] Instance Undefined_option {A} : Undefined (option A) := None.

(* ================================================================== *)
(** ** The class [Feedly] *)
(* ================================================================== *)

Section Client.

(** The network: how the [n]-th call of [fetch] settles. *)
Variable net : nat -> FetchOutcome.

(** [querystring.stringify], of Node's standard library. *)
Variable querystring_stringify : list (string * Value) -> string.

Definition is_fetch (e : Event) : bool :=
  match e with
  | Fetch _ _ _ => true
  | _ => false
  end.

(** The number of calls of [fetch] made so far: the index of the next. *)
Definition next_call (w : World) : nat :=
  List.length (filter is_fetch (trace w)).

(** [fetch(url, init)]: the call is made, and settles as the network
    decides. *)
Definition fetch (url : string) (init : RequestInit.t) : Async Response.t :=
  fun w =>
    let outcome := net (next_call w) in
    let w' := {| this := this w; trace := trace w ++ [Fetch url init outcome] |} in
    match outcome with
    | Responds r => (w', Resolved r)
    | Fails message => (w', Rejected (FetchError message))
    end.

(** [response.json()] *)
Definition json (r : Response.t) : Async Value :=
  match Response.parsed r with
  | Some v => resolve v
  | None => reject InvalidJson
  end.

(** [static catchError(prefix)]: the handler logs and returns nothing. *)
Definition catchError {A} `{Undefined A} (prefix : string)
  : JsError -> Async A :=
  fun error =>
    _ <- emit (ConsoleError prefix error) ;;
    resolve undefined.

(** [static async returnResponse(response)] *)
Definition returnResponse (response : Response.t) : Async FeedlyResponse :=
  then_ (json response)
        (fun json => resolve {| response := response; body := json |}).

(** [static logAuthBody(body)] *)
Definition logAuthBody (body : Value) : Async unit :=
  let bodyCopy := spread body in
  token <- eval (get_access_token body) ;;
  len <- eval (get_length token) ;;
  emit (ConsoleInfo "Refresh of tokens was successful: %o"
          (VObj (assign "access_token"
                   (VStr ("String[" ++ ToString len ++ "]")) bodyCopy))).

(** The default options of a call: [{headers: {Authorization: "OAuth " +
    this.accessToken}}]. *)
Definition default_init (token : Value) : RequestInit.t :=
  {| RequestInit.method := None;
     RequestInit.headers := Some [("Authorization", "OAuth " ++ ToString token)];
     RequestInit.body := None |}.

(** The [return] statement of [request]: the call, the recording of the
    response, the parsing of its body, the handler. *)
Definition dispatch (url : string) (options : RequestInit.t)
  : Async (option FeedlyResponse) :=
  self <- read ;;
  catch_
    (then_
       (then_
          (fetch (baseUrl self ++ url)
             (RequestInit.Object_assign (default_init (accessToken self)) options))
          (fun response =>
             _ <- write (set_lastResponse response) ;;
             resolve response))
       (fun response =>
          result <- returnResponse response ;;
          resolve (Some result)))
    (catchError ("Failed to make call to " ++ url)).

(** [async request(url, options = {})].  The method and [refreshAuthToken]
    call each other; here the refresh is an argument, and the knot is tied
    below. *)
Definition request_with (refreshAuthToken : Async unit)
  (url : string) (options : RequestInit.t) : Async (option FeedlyResponse) :=
  self <- read ;;
  _ <- (if negb (truthy (accessToken self)) && negb (url =? "/v3/auth/token")
        then refreshAuthToken
        else resolve tt) ;;
  dispatch url options.

(** The options [refreshAuthToken] passes to [request]. *)
Definition refresh_init (self : Feedly) : RequestInit.t :=
  {| RequestInit.method := Some "POST";
     RequestInit.headers := Some [];
     RequestInit.body :=
       Some (RequestInit.JSON_stringify
               (VObj [("refresh_token", refreshToken self);
                      ("client_id", VStr "feedlydev");
                      ("client_secret", VStr "feedlydev");
                      ("grant_type", VStr "refresh_token")])) |}.

(** The callback [({response, body}) => { ... }] of [refreshAuthToken];
    its parameter cannot be destructured when it is [undefined]. *)
Definition store_token (result : option FeedlyResponse) : Async unit :=
  match result with
  | None => reject (CannotDestructure VUndefined)
  | Some r =>
      _ <- logAuthBody (body r) ;;
      token <- eval (get_access_token (body r)) ;;
      write (set_accessToken token)
  end.

(** [async refreshAuthToken()].  It calls [request] on the path at which
    [request] itself does not refresh, so the refresh handed to that inner
    call never runs (lemma [request_with_token_path]). *)
Definition refreshAuthToken : Async unit :=
  catch_
    (then_
       (self <- read ;;
        request_with (resolve tt) "/v3/auth/token" (refresh_init self))
       store_token)
    (catchError "Failed to refresh token").

Definition request : string -> RequestInit.t -> Async (option FeedlyResponse) :=
  request_with refreshAuthToken.

(** The endpoint methods. *)
Definition profile : Async (option FeedlyResponse) :=
  request "/v3/profile" RequestInit.empty.

Definition collections : Async (option FeedlyResponse) :=
  request "/v3/collections" RequestInit.empty.

Definition subscriptions : Async (option FeedlyResponse) :=
  request "/v3/subscriptions" RequestInit.empty.

Definition streams (streamId : string) (options : list (string * Value))
  : Async (option FeedlyResponse) :=
  request
    ("/v3/streams/contents?"
       ++ querystring_stringify (assign "streamId" (VStr streamId) options))
    RequestInit.empty.

(** [get ratelimit()] *)
Record RateLimit : Type := {
  count : Number;
  reset : Number
}.

Definition ratelimit (self : Feedly) : Completion RateLimit :=
  match lastResponse self with
  | None => Throw (Error "Cannot get rate limits: There was no response yet")
  | Some r =>
      let headers := Response.headers r in
      Normal {| count := parseInt10 (Headers.get headers "X-Ratelimit-Count");
                reset := parseInt10 (Headers.get headers "X-Ratelimit-Reset") |}
  end.

(** A promise that has settled with [outcome]. *)
Definition settled (outcome : FetchOutcome) : Async Response.t :=
  match outcome with
  | Responds r => resolve r
  | Fails message => reject (FetchError message)
  end.

(** [fetch(url, init)] for a caller that does not await it: the call has
    been made, and the network has it; the callbacks chained on its promise
    run when it settles. *)
Definition fetch_started (url : string) (init : RequestInit.t) (w : World)
  : World :=
  {| this := this w;
     trace := trace w ++ [Fetch url init (net (next_call w))] |}.

(** [this.refreshAuthToken()] for a caller that does not await it: what has
    happened when the call returns its promise.  Nothing is awaited on the
    way to [fetch] (at the token path [request] does not refresh), so the
    call of [fetch] has been made; no callback has run. *)
Definition refreshAuthToken_started (w : World) : World :=
  fetch_started (baseUrl (this w) ++ "/v3/auth/token")
    (RequestInit.Object_assign (default_init (accessToken (this w)))
       (refresh_init (this w)))
    w.

(** What the promise of a started refresh does once its call has settled
    with [outcome]: the callbacks of [request] and of [refreshAuthToken], on
    the client as it is by then (lemma [refreshAuthToken_in_two_steps]). *)
Definition refreshAuthToken_settles (outcome : FetchOutcome) : Async unit :=
  catch_
    (then_
       (catch_
          (then_
             (then_ (settled outcome)
                (fun response =>
                   _ <- write (set_lastResponse response) ;;
                   resolve response))
             (fun response =>
                result <- returnResponse response ;;
                resolve (Some result)))
          (catchError "Failed to make call to /v3/auth/token"))
       store_token)
    (catchError "Failed to refresh token").

(** [constructor(options)].  With [refreshTokenInstant] the constructor
    starts [refreshAuthToken] and does not await it: the client it returns
    has made the call and is otherwise as without the flag.  The started
    refresh settles at some later time, as [refreshAuthToken_settles]
    says. *)
Definition constructor (options : FeedlyInit.t) : Completion World :=
  let self := {| Internals.options := Options.Object_assign options;
                 Internals.lastResponse := None |} in
  let self :=
    if substring1 (baseUrl self) (-1) =? "/"
    then set_baseUrl (substring2 (baseUrl self) 0 (-1)) self
    else self in
  if negb (truthy (refreshToken self))
  then Throw (TypeError "`refreshToken` is required!")
  else if Options.refreshTokenInstant (Internals.options self)
       then Normal (refreshAuthToken_started (fresh self))
       else Normal (fresh self).

(** Everything a caller can do with a client. *)
Inductive Op : Type :=
| CallRequest (url : string) (options : RequestInit.t)
| CallProfile
| CallCollections
| CallSubscriptions
| CallStreams (streamId : string) (options : list (string * Value))
| CallRefreshAuthToken
| GetBaseUrl
| GetAccessToken
| GetRefreshToken
| GetLastResponse
| GetRatelimit.

Definition perform (op : Op) (w : World) : World :=
  match op with
  | CallRequest url options => fst (request url options w)
  | CallProfile => fst (profile w)
  | CallCollections => fst (collections w)
  | CallSubscriptions => fst (subscriptions w)
  | CallStreams streamId options => fst (streams streamId options w)
  | CallRefreshAuthToken => fst (refreshAuthToken w)
  | GetBaseUrl | GetAccessToken | GetRefreshToken | GetLastResponse
  | GetRatelimit => w
  end.

Definition perform_all (ops : list Op) (w : World) : World :=
  fold_left (fun w op => perform op w) ops w.

End Client.

(* ================================================================== *)
(** ** Vocabulary of the properties *)
(* ================================================================== *)

(** The calls of [fetch] in a trace, in order. *)
Definition calls (t : list Event) : list (string * RequestInit.t) :=
  flat_map (fun e => match e with
                     | Fetch url init _ => [(url, init)]
                     | _ => []
                     end) t.

(** The response on record after event [e], [acc] being the one before. *)
Definition record (acc : option Response.t) (e : Event) : option Response.t :=
  match e with
  | Fetch _ _ (Responds r) => Some r
  | _ => acc
  end.

(** The response of the last answered call of a trace. *)
Definition last_response (t : list Event) : option Response.t :=
  fold_left record t None.

(** The token a refresh obtains from a call that settles with [outcome]:
    the [access_token] of a JSON body, provided it has a [length] to read. *)
Definition obtained (outcome : FetchOutcome) : option Value :=
  match outcome with
  | Fails _ => None
  | Responds r =>
      match Response.parsed r with
      | None => None
      | Some body =>
          match get_access_token body with
          | Throw _ => None
          | Normal token =>
              match get_length token with
              | Throw _ => None
              | Normal _ => Some token
              end
          end
      end
  end.

(** A header of the options of a call, by its exact name. *)
Fixpoint assoc (name : string) (h : list (string * string)) : option string :=
  match h with
  | [] => None
  | (k, v) :: rest => if k =? name then Some v else assoc name rest
  end.

Definition header (name : string) (init : RequestInit.t) : option string :=
  match RequestInit.headers init with
  | Some h => assoc name h
  | None => None
  end.

(** [w'] continues [w]: the trace grew by some events, the base URL and the
    refresh token are the same, and the response on record is the one the
    new events leave. *)
Definition continues (w w' : World) : Prop :=
  exists events,
    trace w' = (trace w ++ events)%list
    /\ baseUrl (this w') = baseUrl (this w)
    /\ refreshToken (this w') = refreshToken (this w)
    /\ lastResponse (this w') = fold_left record events (lastResponse (this w)).

(** A refresh succeeded among [events]: its confirmation was logged. *)
Definition confirmed_refresh (e : Event) : bool :=
  match e with
  | ConsoleInfo format _ => format =? "Refresh of tokens was successful: %o"
  | _ => false
  end.

(** The operations that only read. *)
Definition is_getter (op : Op) : bool :=
  match op with
  | GetBaseUrl | GetAccessToken | GetRefreshToken | GetLastResponse
  | GetRatelimit => true
  | _ => false
  end.

Definition is_refresh (op : Op) : bool :=
  match op with
  | CallRefreshAuthToken => true
  | _ => false
  end.

(** Does [needle] occur in [s]? *)
Fixpoint contains (needle s : string) : bool :=
  String.prefix needle s
  || match s with
     | String _ rest => contains needle rest
     | EmptyString => false
     end.

(** Does the string [needle] occur in a logged value: in a name of a
    property or in a string it holds? *)
Fixpoint mentions (needle : string) (v : Value) : bool :=
  match v with
  | VStr s => contains needle s
  | VArr items => existsb (mentions needle) items
  | VObj fields =>
      existsb (fun kv => contains needle (fst kv) || mentions needle (snd kv))
              fields
  | _ => false
  end.

(** Does [needle] occur in what the console received?  A sufficient test:
    of an error only the prefix is searched, of a value only the names and
    the strings. *)
Definition printed (needle : string) (e : Event) : bool :=
  match e with
  | ConsoleInfo format arg => contains needle format || mentions needle arg
  | ConsoleError prefix _ => contains needle prefix
  | Fetch _ _ _ => false
  end.

(** The placeholder [logAuthBody] writes over a token that is a string:
    its length, a number, as the template literal renders it. *)
Definition placeholder (token : string) : string :=
  "String[" ++ Number_toString (Z.of_nat (String.length token)) ++ "]".

(** The response on record is the response of the last answered call. *)
Definition on_record (w : World) : Prop :=
  lastResponse (this w) = last_response (trace w).

(** A numeral: the string of the decimal digits [ds], and its value. *)
Definition digit_char (d : nat) : ascii := ascii_of_nat (48 + d).

Fixpoint numeral (ds : list nat) : string :=
  match ds with
  | [] => EmptyString
  | d :: rest => String (digit_char d) (numeral rest)
  end.

Definition numeral_value (ds : list nat) : Z :=
  fold_left (fun acc d => (10 * acc + Z.of_nat d)%Z) ds 0%Z.

(* ================================================================== *)
(** ** Clients, networks and options to try the properties on *)
(* ================================================================== *)

Module Example.

(** A response with the two rate limit headers. *)
Definition response (body : option Value) : Response.t :=
  {| Response.status := 200;
     Response.headers := [("X-Ratelimit-Count", "200");
                          ("X-Ratelimit-Reset", "1700000000")];
     Response.parsed := body |}.

Definition token_body : Value :=
  VObj [("access_token", VStr "abc123"); ("expires_in", VNum 604800)].

(** A body that holds the token in a second field. *)
Definition echoing_body : Value :=
  VObj [("id", VStr "abc123"); ("access_token", VStr "abc123")].

Definition profile_body : Value := VObj [("id", VStr "user")].

(** The first call obtains the token ["abc123"], the later ones answer
    with a profile. *)
Definition net_token (n : nat) : FetchOutcome :=
  match n with
  | O => Responds (response (Some token_body))
  | _ => Responds (response (Some profile_body))
  end.

Definition net_echo (n : nat) : FetchOutcome :=
  match n with
  | O => Responds (response (Some echoing_body))
  | _ => Responds (response (Some profile_body))
  end.

(** No call gets through. *)
Definition net_down (_ : nat) : FetchOutcome := Fails "ECONNREFUSED".

(** Every call is answered, with a body that is not JSON. *)
Definition net_html (_ : nat) : FetchOutcome := Responds (response None).

Definition stringify (fields : list (string * Value)) : string :=
  join "&" (map (fun kv => fst kv ++ "=" ++ ToString (snd kv)) fields).

Definition init : FeedlyInit.t :=
  {| FeedlyInit.baseUrl := None;
     FeedlyInit.accessToken := None;
     FeedlyInit.refreshToken := Some "YourSecr3tEnterpriseRefreshT0ken";
     FeedlyInit.refreshTokenInstant := false |}.

Definition init_with_token : FeedlyInit.t :=
  {| FeedlyInit.baseUrl := None;
     FeedlyInit.accessToken := Some "YourSecr3tAccessT0ken";
     FeedlyInit.refreshToken := Some "YourSecr3tEnterpriseRefreshT0ken";
     FeedlyInit.refreshTokenInstant := false |}.

(** The clients [new Feedly(init)] and [new Feedly(init_with_token)]. *)
Definition client : World :=
  fresh {| Internals.options := Options.Object_assign init;
           Internals.lastResponse := None |}.

Definition client_with_token : World :=
  fresh {| Internals.options := Options.Object_assign init_with_token;
           Internals.lastResponse := None |}.

(** [{headers: {"Content-Type": "application/json"}}] *)
Definition content_type : RequestInit.t :=
  {| RequestInit.method := None;
     RequestInit.headers := Some [("Content-Type", "application/json")];
     RequestInit.body := None |}.

End Example.

(* ================================================================== *)
(** ** More vocabulary, and more to try the properties on *)
(* ================================================================== *)

(** A value [logAuthBody] can read the [length] of: anything but
    [undefined] and [null]. *)
Definition usable (token : Value) : bool :=
  match token with
  | VUndefined | VNull => false
  | _ => true
  end.

(** What [ratelimit] returns with [r] on record. *)
Definition limits (r : Response.t) : RateLimit :=
  {| count := parseInt10 (Headers.get (Response.headers r) "X-Ratelimit-Count");
     reset := parseInt10 (Headers.get (Response.headers r) "X-Ratelimit-Reset") |}.

(** The four endpoint methods. *)
Definition is_endpoint (op : Op) : bool :=
  match op with
  | CallProfile | CallCollections | CallSubscriptions | CallStreams _ _ => true
  | _ => false
  end.

(** The operations that call [request]. *)
Definition is_request (op : Op) : bool :=
  match op with
  | CallRequest _ _ => true
  | _ => is_endpoint op
  end.

(** The names of the properties of an object, in order. *)
Definition keys (fields : list (string * Value)) : list string :=
  map fst fields.

Module Sample.


(** The token endpoint answers with an error object. *)
Definition net_unauthorized (_ : nat) : FetchOutcome :=
  Responds (Example.response
              (Some (VObj [("errorCode", VNum 401);
                           ("errorMessage", VStr "unauthorized")]))).

(** The first call is answered, the later ones fail. *)
Definition net_once (n : nat) : FetchOutcome :=
  match n with
  | O => Responds (Example.response (Some Example.token_body))
  | _ => Fails "ECONNRESET"
  end.

Definition init_instant : FeedlyInit.t :=
  {| FeedlyInit.baseUrl := None;
     FeedlyInit.accessToken := None;
     FeedlyInit.refreshToken := Some "YourSecr3tEnterpriseRefreshT0ken";
     FeedlyInit.refreshTokenInstant := true |}.

Definition init_slash : FeedlyInit.t :=
  {| FeedlyInit.baseUrl := Some "/";
     FeedlyInit.accessToken := None;
     FeedlyInit.refreshToken := Some "YourSecr3tEnterpriseRefreshT0ken";
     FeedlyInit.refreshTokenInstant := false |}.

(** [{count: 5, streamId: "spoofed"}] *)
Definition stream_options : list (string * Value) :=
  [("count", VNum 5); ("streamId", VStr "spoofed")].

(** A response whose rate limit headers carry more than digits. *)
Definition response_with_units : Response.t :=
  {| Response.status := 200;
     Response.headers := [("X-Ratelimit-Count", "200 calls");
                          ("X-Ratelimit-Reset", "3600s")];
     Response.parsed := None |}.

End Sample.

(* ================================================================== *)
(** ** What one call does *)
(* ================================================================== *)

Ltac unfold_async :=
  unfold then_, catch_, catchError, returnResponse, json, eval, read, write,
    emit, resolve, reject, fetch, undefined, Undefined_unit, Undefined_option
    in *.

Section Calls.

Variable net : nat -> FetchOutcome.

(** The [return] statement of [request], case by case. *)
Lemma dispatch_eq (url : string) (options : RequestInit.t) (w : World) :
  dispatch net url options w =
  let call :=
    Fetch (baseUrl (this w) ++ url)
      (RequestInit.Object_assign (default_init (accessToken (this w))) options) in
  let failed := ConsoleError ("Failed to make call to " ++ url) in
  match net (next_call w) with
  | Fails message =>
      ({| this := this w;
          trace := trace w ++ [call (Fails message); failed (FetchError message)] |},
       Resolved None)
  | Responds r =>
      match Response.parsed r with
      | Some json =>
          ({| this := set_lastResponse r (this w);
              trace := trace w ++ [call (Responds r)] |},
           Resolved (Some {| response := r; body := json |}))
      | None =>
          ({| this := set_lastResponse r (this w);
              trace := trace w ++ [call (Responds r); failed InvalidJson] |},
           Resolved None)
      end
  end.
Proof.
  unfold dispatch, next_call. unfold_async. cbn.
  destruct (net _) as [r | message]; cbn.
  - destruct (Response.parsed r); cbn; [reflexivity |].
    now rewrite <- app_assoc.
  - now rewrite <- app_assoc.
Qed.

(** At the token path [request] is its [return] statement alone, whatever
    refresh it was handed. *)
Lemma request_with_token_path (refresh : Async unit) (options : RequestInit.t)
  (w : World) :
  request_with net refresh "/v3/auth/token" options w
  = dispatch net "/v3/auth/token" options w.
Proof.
  unfold request_with. unfold_async. cbn.
  now rewrite andb_false_r.
Qed.

(** The knot: [refreshAuthToken] is the chain of the source around
    [this.request("/v3/auth/token", ...)], [request] being the method
    that refreshes with [refreshAuthToken]. *)
Lemma refreshAuthToken_calls_request (w : World) :
  refreshAuthToken net w
  = catch_
      (then_
         (self <- read ;;
          request net "/v3/auth/token" (refresh_init self))
         store_token)
      (catchError "Failed to refresh token") w.
Proof.
  unfold refreshAuthToken, request, catch_.
  assert (E : forall refresh : Async unit,
             (self <- read ;;
              request_with net refresh "/v3/auth/token" (refresh_init self)) w
             = dispatch net "/v3/auth/token" (refresh_init (this w)) w).
  { intro refresh. unfold then_ at 1. unfold read.
    apply request_with_token_path. }
  unfold then_ at 1 3. now rewrite !E.
Qed.

(** [refreshAuthToken], case by case. *)
Lemma refreshAuthToken_eq (w : World) :
  refreshAuthToken net w =
  let call :=
    Fetch (baseUrl (this w) ++ "/v3/auth/token") (refresh_init (this w)) in
  let failed := ConsoleError "Failed to refresh token" in
  let lost := CannotDestructure VUndefined in
  let after (self : Feedly) (events : list Event) : World * Settled unit :=
    ({| this := self; trace := trace w ++ events |}, Resolved tt) in
  match net (next_call w) with
  | Fails message =>
      after (this w)
        [call (Fails message);
         ConsoleError "Failed to make call to /v3/auth/token" (FetchError message);
         failed lost]
  | Responds r =>
      let self := set_lastResponse r (this w) in
      match Response.parsed r with
      | None =>
          after self
            [call (Responds r);
             ConsoleError "Failed to make call to /v3/auth/token" InvalidJson;
             failed lost]
      | Some body =>
          match get_access_token body with
          | Throw e => after self [call (Responds r); failed e]
          | Normal token =>
              match get_length token with
              | Throw e => after self [call (Responds r); failed e]
              | Normal len =>
                  after (set_accessToken token self)
                    [call (Responds r);
                     ConsoleInfo "Refresh of tokens was successful: %o"
                       (VObj (assign "access_token"
                                (VStr ("String[" ++ ToString len ++ "]"))
                                (spread body)))]
              end
          end
      end
  end.
Proof.
  unfold refreshAuthToken.
  unfold then_ at 1. unfold catch_ at 1. unfold then_ at 1. unfold read at 1.
  rewrite request_with_token_path, dispatch_eq. cbn.
  destruct (net (next_call w)) as [r | message]; cbn.
  - destruct (Response.parsed r) as [body |]; cbn.
    + unfold store_token, logAuthBody. unfold_async. cbn.
      destruct (get_access_token body) as [token | e]; cbn.
      * destruct (get_length token) as [len | e]; cbn;
          now rewrite <- app_assoc.
      * now rewrite <- app_assoc.
    + unfold_async. cbn. now rewrite <- app_assoc.
  - unfold_async. cbn. now rewrite <- app_assoc.
Qed.

(** A refresh is its call, and then what its promise does once the call
    has settled. *)
Lemma refreshAuthToken_in_two_steps (w : World) :
  refreshAuthToken net w
  = refreshAuthToken_settles (net (next_call w))
      (refreshAuthToken_started net w).
Proof.
  rewrite refreshAuthToken_eq.
  unfold refreshAuthToken_settles, refreshAuthToken_started, fetch_started,
    settled, store_token, logAuthBody.
  unfold_async. cbn.
  destruct (net (next_call w)) as [r | message]; cbn.
  - destruct (Response.parsed r) as [body |]; cbn.
    + destruct (get_access_token body) as [token | e]; cbn.
      * destruct (get_length token) as [len | e]; cbn;
          now rewrite <- app_assoc.
      * now rewrite <- app_assoc.
    + now rewrite <- !app_assoc.
  - now rewrite <- !app_assoc.
Qed.

End Calls.

(** The case analyses the two equations call for: how the call settled,
    whether the body parsed, whether it carries a token with a length. *)
Ltac dispatch_cases :=
  rewrite dispatch_eq; cbn zeta;
  match goal with
  | |- context [?net (next_call ?w)] => destruct (net (next_call w)) as [?r | ?message]
  end;
  [ match goal with
    | |- context [Response.parsed ?r] => destruct (Response.parsed r) as [?value |] eqn:?P
    end
  | ].

Ltac refresh_cases :=
  rewrite refreshAuthToken_eq; cbn zeta;
  match goal with
  | |- context [?net (next_call ?w)] => destruct (net (next_call w)) as [?r | ?message]
  end;
  [ match goal with
    | |- context [Response.parsed ?r] => destruct (Response.parsed r) as [?body |]
    end;
    [ match goal with
      | |- context [get_access_token ?b] =>
          destruct (get_access_token b) as [?token | ?e]
      end;
      [ match goal with
        | |- context [get_length ?t] => destruct (get_length t) as [?len | ?e]
        end
      | ]
    | ]
  | ].

Section Frames.

Variable net : nat -> FetchOutcome.
Variable querystring_stringify : list (string * Value) -> string.

Lemma refreshAuthToken_resolves (w : World) :
  snd (refreshAuthToken net w) = Resolved tt.
Proof.
  refresh_cases; reflexivity.
Qed.

(** [request] is its [if] statement, then its [return] statement. *)
Lemma request_eq (url : string) (options : RequestInit.t) (w : World) :
  request net url options w =
  dispatch net url options
    (if negb (truthy (accessToken (this w))) && negb (url =? "/v3/auth/token")
     then fst (refreshAuthToken net w)
     else w).
Proof.
  unfold request, request_with.
  unfold then_ at 1. unfold read at 1.
  unfold then_ at 1.
  destruct (negb (truthy (accessToken (this w))) && negb (url =? "/v3/auth/token")).
  - pose proof (refreshAuthToken_resolves w) as H.
    destruct (refreshAuthToken net w) as [w1 s]. cbn in H. now subst s.
  - reflexivity.
Qed.

Lemma dispatch_options (url : string) (options : RequestInit.t) (w : World) :
  Internals.options (this (fst (dispatch net url options w)))
  = Internals.options (this w).
Proof.
  dispatch_cases; reflexivity.
Qed.

(** The token after a refresh: the one obtained, else the one held. *)
Lemma refreshAuthToken_token (w : World) :
  accessToken (this (fst (refreshAuthToken net w)))
  = match obtained (net (next_call w)) with
    | Some token => token
    | None => accessToken (this w)
    end.
Proof.
  unfold obtained. refresh_cases; reflexivity.
Qed.

Lemma continues_refl (w : World) : continues w w.
Proof.
  exists []. rewrite app_nil_r. now repeat split.
Qed.

Lemma continues_trans (w1 w2 w3 : World) :
  continues w1 w2 -> continues w2 w3 -> continues w1 w3.
Proof.
  intros (e1 & T1 & B1 & R1 & L1) (e2 & T2 & B2 & R2 & L2).
  exists (e1 ++ e2)%list. repeat split.
  - now rewrite T2, T1, app_assoc.
  - congruence.
  - congruence.
  - now rewrite fold_left_app, <- L1.
Qed.

Lemma dispatch_continues (url : string) (options : RequestInit.t) (w : World) :
  continues w (fst (dispatch net url options w)).
Proof.
  dispatch_cases; eexists; cbn; repeat split.
Qed.

Lemma refreshAuthToken_continues (w : World) :
  continues w (fst (refreshAuthToken net w)).
Proof.
  refresh_cases; eexists; cbn; repeat split.
Qed.

Lemma request_continues (url : string) (options : RequestInit.t) (w : World) :
  continues w (fst (request net url options w)).
Proof.
  rewrite request_eq.
  destruct (_ && _).
  - eapply continues_trans; [apply refreshAuthToken_continues |].
    apply dispatch_continues.
  - apply dispatch_continues.
Qed.

Lemma perform_continues (op : Op) (w : World) :
  continues w (perform net querystring_stringify op w).
Proof.
  destruct op; unfold perform, profile, collections, subscriptions, streams;
    try apply continues_refl; try apply request_continues.
  apply refreshAuthToken_continues.
Qed.

Lemma perform_all_continues (ops : list Op) (w : World) :
  continues w (perform_all net querystring_stringify ops w).
Proof.
  revert w. induction ops as [| op ops IH]; intro w; cbn.
  - apply continues_refl.
  - eapply continues_trans; [apply perform_continues | apply IH].
Qed.

(** A request made while a token is held, or at the token path, keeps the
    token. *)
Lemma request_keeps_token (url : string) (options : RequestInit.t) (w : World) :
  truthy (accessToken (this w)) = true \/ url = "/v3/auth/token" ->
  accessToken (this (fst (request net url options w))) = accessToken (this w).
Proof.
  intro H. rewrite request_eq.
  replace (negb (truthy (accessToken (this w))) && negb (url =? "/v3/auth/token"))
    with false.
  - unfold accessToken. now rewrite dispatch_options.
  - destruct H as [H | H].
    + now rewrite H.
    + subst url. now rewrite andb_false_r.
Qed.

End Frames.

(* ================================================================== *)
(** ** Construction *)
(* ================================================================== *)

Section Construction.

Variable net : nat -> FetchOutcome.

Lemma substring_all (s : string) : String.substring 0 (String.length s) s = s.
Proof.
  induction s as [| c s IH]; cbn; [reflexivity | now rewrite IH].
Qed.

Lemma substring_none (s : string) : String.substring 0 0 s = EmptyString.
Proof.
  destruct s; reflexivity.
Qed.

(** [s.substring(-1)] is [s]: the index below zero counts as zero. *)
Lemma substring1_minus_one (s : string) : substring1 s (-1) = s.
Proof.
  unfold substring1, substring2, clamp.
  replace (Z.to_nat (Z.min (Z.max (-1) 0) (Z.of_nat (String.length s)))) with 0%nat by lia.
  replace (Z.to_nat (Z.min (Z.max (Z.of_nat (String.length s)) 0)
                       (Z.of_nat (String.length s))))
    with (String.length s) by lia.
  rewrite Nat.min_0_l, Nat.max_0_l, Nat.sub_0_r.
  apply substring_all.
Qed.

(** [s.substring(0, -1)] is the empty string. *)
Lemma substring2_zero_minus_one (s : string) : substring2 s 0 (-1) = EmptyString.
Proof.
  unfold substring2, clamp.
  replace (Z.to_nat (Z.min (Z.max 0 0) (Z.of_nat (String.length s)))) with 0%nat by lia.
  replace (Z.to_nat (Z.min (Z.max (-1) 0) (Z.of_nat (String.length s)))) with 0%nat by lia.
  apply substring_none.
Qed.

(** X1: the base URL a constructed client holds is the one supplied (or the
    default) as it is, unless it is the one-character string ["/"], which
    becomes empty. *)
Lemma constructor_baseUrl (options : FeedlyInit.t) (w : World) :
  constructor net options = Normal w ->
  baseUrl (this w)
  = let supplied := Options.baseUrl (Options.Object_assign options) in
    if supplied =? "/" then EmptyString else supplied.
Proof.
  unfold constructor. cbn zeta.
  set (self0 := {| Internals.options := Options.Object_assign options;
                   Internals.lastResponse := None |}).
  rewrite substring1_minus_one, substring2_zero_minus_one.
  change (baseUrl self0) with (Options.baseUrl (Options.Object_assign options)).
  set (self := if _ =? "/" then _ else _).
  assert (B : baseUrl self
              = if Options.baseUrl (Options.Object_assign options) =? "/"
                then EmptyString
                else Options.baseUrl (Options.Object_assign options)).
  { subst self. destruct (_ =? "/"); reflexivity. }
  destruct (negb (truthy (refreshToken self))); [discriminate |].
  destruct (Options.refreshTokenInstant (Internals.options self));
    intro H; injection H as <-; exact B.
Qed.

(** C2, on the code: the constructor is handed the base URL
    ["https://cloud.feedly.com/"], which ends in a slash, and the client it
    builds holds that string with the slash still there.  The test
    [baseUrl.substring(-1) === "/"] compares the whole string with ["/"]. *)
Theorem constructor_keeps_trailing_slash :
  exists w,
    constructor net
      {| FeedlyInit.baseUrl := Some "https://cloud.feedly.com/";
         FeedlyInit.accessToken := None;
         FeedlyInit.refreshToken := Some "YourSecr3tEnterpriseRefreshT0ken";
         FeedlyInit.refreshTokenInstant := false |}
    = Normal w
    /\ baseUrl (this w) = "https://cloud.feedly.com/".
Proof.
  eexists. split; reflexivity.
Qed.

(** C5: construction throws the TypeError, at once, when the options carry
    no refresh token or an empty one, and returns a client when they carry
    a non-empty one. *)
Theorem constructor_requires_refreshToken (options : FeedlyInit.t) :
  match FeedlyInit.refreshToken options with
  | None | Some EmptyString =>
      constructor net options = Throw (TypeError "`refreshToken` is required!")
  | Some (String _ _) =>
      exists w, constructor net options = Normal w
  end.
Proof.
  unfold constructor. cbn zeta.
  rewrite substring1_minus_one.
  set (self0 := {| Internals.options := Options.Object_assign options;
                   Internals.lastResponse := None |}).
  assert (R : forall self : Feedly,
             Internals.options self = Internals.options self0
             \/ Internals.options self
                = Options.with_baseUrl (substring2 (baseUrl self0) 0 (-1))
                    (Internals.options self0) ->
             refreshToken self = nullable (FeedlyInit.refreshToken options)).
  { intros self [E | E]; unfold refreshToken; rewrite E; reflexivity. }
  set (self := if _ =? "/" then _ else _).
  assert (T : refreshToken self = nullable (FeedlyInit.refreshToken options)).
  { apply R. subst self. destruct (_ =? "/"); [right | left]; reflexivity. }
  rewrite T.
  destruct (FeedlyInit.refreshToken options) as [[| c s] |]; cbn;
    try reflexivity.
  destruct (Options.refreshTokenInstant (Internals.options self)); eexists;
    reflexivity.
Qed.

End Construction.

(* ================================================================== *)
(** ** Requests: when the token is refreshed, what is sent *)
(* ================================================================== *)

Section Requests.

Variable net : nat -> FetchOutcome.

Lemma calls_app (t1 t2 : list Event) : calls (t1 ++ t2) = (calls t1 ++ calls t2)%list.
Proof.
  apply flat_map_app.
Qed.

(** The [return] statement of [request] makes one call. *)
Lemma dispatch_calls (url : string) (options : RequestInit.t) (w : World) :
  calls (trace (fst (dispatch net url options w)))
  = (calls (trace w)
     ++ [((baseUrl (this w) ++ url)%string,
          RequestInit.Object_assign (default_init (accessToken (this w))) options)])%list.
Proof.
  dispatch_cases; cbn; now rewrite calls_app.
Qed.

(** A refresh makes one call. *)
Lemma refreshAuthToken_calls (w : World) :
  calls (trace (fst (refreshAuthToken net w)))
  = (calls (trace w)
     ++ [((baseUrl (this w) ++ "/v3/auth/token")%string, refresh_init (this w))])%list.
Proof.
  refresh_cases; cbn; now rewrite calls_app.
Qed.

Lemma refreshAuthToken_baseUrl (w : World) :
  baseUrl (this (fst (refreshAuthToken net w))) = baseUrl (this w).
Proof.
  now destruct (refreshAuthToken_continues net w) as (? & _ & E & _).
Qed.

Lemma request_baseUrl (url : string) (options : RequestInit.t) (w : World) :
  baseUrl (this (fst (request net url options w))) = baseUrl (this w).
Proof.
  now destruct (request_continues net url options w) as (? & _ & E & _).
Qed.

Lemma header_default (token : Value) (options : RequestInit.t) :
  RequestInit.headers options = None ->
  header "Authorization" (RequestInit.Object_assign (default_init token) options)
  = Some ("OAuth " ++ ToString token).
Proof.
  intro H. unfold header, RequestInit.Object_assign. cbn. rewrite H. reflexivity.
Qed.

(** While a token is held, and at the token path, [request] does not
    refresh. *)
Lemma request_without_refresh (url : string) (options : RequestInit.t)
  (w : World) :
  truthy (accessToken (this w)) = true \/ url = "/v3/auth/token" ->
  request net url options w = dispatch net url options w.
Proof.
  intro H. rewrite request_eq. destruct H as [H | H].
  - now rewrite H.
  - subst url. now rewrite andb_false_r.
Qed.

(** Otherwise it refreshes first. *)
Lemma request_after_refresh (url : string) (options : RequestInit.t)
  (w : World) :
  truthy (accessToken (this w)) = false -> url <> "/v3/auth/token" ->
  request net url options w
  = dispatch net url options (fst (refreshAuthToken net w)).
Proof.
  intros Hno Hurl. rewrite request_eq, Hno.
  apply String.eqb_neq in Hurl. now rewrite Hurl.
Qed.

(** The last call of a request is its own. *)
Lemma request_calls (url : string) (options : RequestInit.t) (w : World) :
  exists before,
    calls (trace (fst (request net url options w)))
    = (before
       ++ [((baseUrl (this w) ++ url)%string,
            RequestInit.Object_assign
              (default_init (accessToken (this (fst (request net url options w)))))
              options)])%list.
Proof.
  rewrite request_eq.
  set (w1 := if _ && _ then _ else _).
  assert (B : baseUrl (this w1) = baseUrl (this w)).
  { subst w1. destruct (_ && _); [apply refreshAuthToken_baseUrl | reflexivity]. }
  exists (calls (trace w1)).
  rewrite dispatch_calls, B. unfold accessToken at 2.
  now rewrite dispatch_options.
Qed.

(** C1, as amended.  A request made while no token is held, at a path other
    than the token path, runs one whole [refreshAuthToken] and then its own
    call: two calls of [fetch], the refresh first.  The call is made with
    the token the client holds once that refresh is over, which is the
    token the refresh obtained when it obtained one; it carries that token
    when the options bring no headers of their own.  A request made while a
    token is held, or at the token path, makes its own call and nothing
    else. *)
Theorem request_refresh_policy (url : string) (options : RequestInit.t)
  (w : World) :
  let w' := fst (request net url options w) in
  let refreshed := fst (refreshAuthToken net w) in
  (truthy (accessToken (this w)) = false -> url <> "/v3/auth/token" ->
     request net url options w = dispatch net url options refreshed
     /\ calls (trace w')
        = (calls (trace w)
           ++ [((baseUrl (this w) ++ "/v3/auth/token")%string, refresh_init (this w));
               ((baseUrl (this w) ++ url)%string,
                RequestInit.Object_assign
                  (default_init (accessToken (this refreshed))) options)])%list
     /\ (forall token, obtained (net (next_call w)) = Some token ->
           accessToken (this refreshed) = token)
     /\ (RequestInit.headers options = None ->
           header "Authorization"
             (RequestInit.Object_assign
                (default_init (accessToken (this refreshed))) options)
           = Some ("OAuth " ++ ToString (accessToken (this refreshed)))))
  /\ (truthy (accessToken (this w)) = true \/ url = "/v3/auth/token" ->
        request net url options w = dispatch net url options w
        /\ calls (trace w')
           = (calls (trace w)
              ++ [((baseUrl (this w) ++ url)%string,
                   RequestInit.Object_assign
                     (default_init (accessToken (this w))) options)])%list
        /\ accessToken (this w') = accessToken (this w)).
Proof.
  cbn zeta. split.
  - intros Hno Hurl.
    pose proof (request_after_refresh url options w Hno Hurl) as E.
    repeat split.
    + exact E.
    + rewrite E, dispatch_calls, refreshAuthToken_calls,
        refreshAuthToken_baseUrl, <- app_assoc.
      reflexivity.
    + intros token H. now rewrite refreshAuthToken_token, H.
    + apply header_default.
  - intro H.
    pose proof (request_without_refresh url options w H) as E.
    repeat split.
    + exact E.
    + rewrite E. apply dispatch_calls.
    + now apply request_keeps_token.
Qed.

(** C8: every request ends with one call of [fetch], at the base URL
    followed by the path, with the options of the caller laid over the
    default [{headers: {Authorization: "OAuth " + accessToken}}]: a key of
    the caller replaces the default of that name, so the headers of the
    caller, when there are some, are the headers sent.  The token is the
    one held when the call is made, which the request leaves in place.
    [refreshAuthToken] makes one call: POST to the token path, with headers
    [{}] and the four-field JSON body. *)
Theorem request_call_shape (url : string) (options : RequestInit.t) (w : World) :
  let w' := fst (request net url options w) in
  let sent :=
    RequestInit.Object_assign (default_init (accessToken (this w'))) options in
  (exists before,
      calls (trace w') = (before ++ [((baseUrl (this w) ++ url)%string, sent)])%list)
  /\ header "Authorization" (default_init (accessToken (this w')))
     = Some ("OAuth " ++ ToString (accessToken (this w')))
  /\ RequestInit.method sent = RequestInit.method options
  /\ RequestInit.body sent = RequestInit.body options
  /\ RequestInit.headers sent
     = match RequestInit.headers options with
       | Some supplied => Some supplied
       | None => Some [("Authorization", "OAuth " ++ ToString (accessToken (this w')))]
       end
  /\ calls (trace (fst (refreshAuthToken net w)))
     = (calls (trace w)
        ++ [((baseUrl (this w) ++ "/v3/auth/token")%string,
             {| RequestInit.method := Some "POST";
                RequestInit.headers := Some [];
                RequestInit.body :=
                  Some (RequestInit.JSON_stringify
                          (VObj [("refresh_token", refreshToken (this w));
                                 ("client_id", VStr "feedlydev");
                                 ("client_secret", VStr "feedlydev");
                                 ("grant_type", VStr "refresh_token")])) |})])%list.
Proof.
  cbn zeta. split; [| split; [| split; [| split; [| split]]]].
  - apply request_calls.
  - reflexivity.
  - cbn. destruct (RequestInit.method options); reflexivity.
  - cbn. destruct (RequestInit.body options); reflexivity.
  - cbn. destruct (RequestInit.headers options); reflexivity.
  - apply refreshAuthToken_calls.
Qed.

(** C10: when the options of a request have a [headers] key, the headers
    sent are those, whole: the default object is replaced, not merged into,
    and unless the caller supplied an [Authorization] header the call has
    none. *)
Theorem request_headers_replace_default (url : string) (options : RequestInit.t)
  (w : World) (supplied : list (string * string)) :
  RequestInit.headers options = Some supplied ->
  exists before init,
    calls (trace (fst (request net url options w)))
    = (before ++ [((baseUrl (this w) ++ url)%string, init)])%list
    /\ RequestInit.headers init = Some supplied
    /\ header "Authorization" init = assoc "Authorization" supplied.
Proof.
  intro H.
  destruct (request_calls url options w) as (before & E).
  eexists before, _. split; [exact E |].
  unfold header. cbn. rewrite H. split; reflexivity.
Qed.

End Requests.

(* ================================================================== *)
(** ** Failures, and the response on record *)
(* ================================================================== *)

(** From here on [++] joins lists; strings are joined under [%string]. *)
Open Scope list_scope.

Section Failures.

Variable net : nat -> FetchOutcome.



(** The response on record after the [return] statement of [request]. *)
Lemma dispatch_lastResponse (url : string) (options : RequestInit.t) (w : World) :
  lastResponse (this (fst (dispatch net url options w)))
  = match net (next_call w) with
    | Responds r => Some r
    | Fails _ => lastResponse (this w)
    end.
Proof.
  dispatch_cases; reflexivity.
Qed.

(** C7: the response on record after a request is what its events leave:
    each call that received a response replaces it, anything else keeps it.
    The request's own call, the last of its events, puts its response on
    record when it receives one, also when the body then fails to parse
    and the request resolves with nothing; when that call fails the record
    stays as it was when the call was made. *)
Theorem request_records_response (url : string) (options : RequestInit.t)
  (w : World) :
  let w' := fst (request net url options w) in
  let refreshed := fst (refreshAuthToken net w) in
  (exists events,
      trace w' = trace w ++ events
      /\ lastResponse (this w') = fold_left record events (lastResponse (this w)))
  /\ (truthy (accessToken (this w)) = true \/ url = "/v3/auth/token" ->
        lastResponse (this w')
        = match net (next_call w) with
          | Responds r => Some r
          | Fails _ => lastResponse (this w)
          end)
  /\ (truthy (accessToken (this w)) = false -> url <> "/v3/auth/token" ->
        lastResponse (this w')
        = match net (next_call refreshed) with
          | Responds r => Some r
          | Fails _ => lastResponse (this refreshed)
          end)
  /\ (forall r,
        truthy (accessToken (this w)) = true \/ url = "/v3/auth/token" ->
        net (next_call w) = Responds r -> Response.parsed r = None ->
        lastResponse (this w') = Some r
        /\ snd (request net url options w) = Resolved None).
Proof.
  cbn zeta.
  pose proof (request_without_refresh net url options w) as K.
  split; [| split; [| split]].
  - destruct (request_continues net url options w) as (events & T & _ & _ & L).
    now exists events.
  - intro H. rewrite (K H). apply dispatch_lastResponse.
  - intros Hno Hurl.
    rewrite (request_after_refresh net url options w Hno Hurl).
    apply dispatch_lastResponse.
  - intros r H N P. rewrite (K H). split.
    + now rewrite dispatch_lastResponse, N.
    + rewrite dispatch_eq. cbn zeta. now rewrite N, P.
Qed.

End Failures.

(* ================================================================== *)
(** ** The rate limit *)
(* ================================================================== *)

Section RateLimits.

Variable net : nat -> FetchOutcome.
Variable querystring_stringify : list (string * Value) -> string.

Lemma fold_record_none (t : list Event) (acc : option Response.t) :
  fold_left record t acc = None
  <-> acc = None /\ forall u i r, ~ In (Fetch u i (Responds r)) t.
Proof.
  revert acc. induction t as [| e t IH]; intro acc; cbn.
  - intuition.
  - rewrite IH. split.
    + intros [A N]. split.
      * destruct e as [u i [r | m] | |]; cbn in A; congruence.
      * intros u i r [E | I]; [| now apply (N u i r)].
        subst e. discriminate.
    + intros [A N]. split.
      * subst acc. destruct e as [u i [r | m] | |]; cbn; try reflexivity.
        exfalso. apply (N u i r). now left.
      * intros u i r I. apply (N u i r). now right.
Qed.

Lemma on_record_continues (w w' : World) :
  on_record w -> continues w w' -> on_record w'.
Proof.
  unfold on_record, last_response.
  intros R (events & T & _ & _ & L).
  now rewrite T, fold_left_app, <- R.
Qed.

(** A client is built with nothing on record. *)
Lemma constructor_lastResponse (options : FeedlyInit.t) (w : World) :
  constructor net options = Normal w -> lastResponse (this w) = None.
Proof.
  unfold constructor. cbn zeta.
  set (self := if _ =? "/" then _ else _).
  assert (L : lastResponse self = None).
  { subst self. destruct (_ =? "/"); reflexivity. }
  destruct (negb (truthy (refreshToken self))); [discriminate |].
  destruct (Options.refreshTokenInstant (Internals.options self));
    intro H; injection H as <-; exact L.
Qed.

(** Built without [refreshTokenInstant] it has made no call either. *)
Lemma constructor_on_record (options : FeedlyInit.t) (w : World) :
  constructor net options = Normal w ->
  FeedlyInit.refreshTokenInstant options = false ->
  on_record w.
Proof.
  unfold constructor. cbn zeta.
  set (self := if _ =? "/" then _ else _).
  assert (F : on_record (fresh self)
              /\ Options.refreshTokenInstant (Internals.options self)
                 = FeedlyInit.refreshTokenInstant options).
  { subst self. destruct (_ =? "/"); split; reflexivity. }
  destruct F as [F I]. rewrite I.
  destruct (negb (truthy (refreshToken self))); [discriminate |].
  intros H N. rewrite N in H. now injection H as <-.
Qed.

Lemma digit_of_digit_char (d : nat) :
  (d < 10)%nat -> digit_of (digit_char d) = Some (Z.of_nat d).
Proof.
  intro H.
  do 10 (destruct d as [| d]; [reflexivity |]). lia.
Qed.

Lemma digits_numeral (ds : list nat) (acc : Z) :
  Forall (fun d => (d < 10)%nat) ds ->
  digits acc (numeral ds)
  = fold_left (fun acc d => (10 * acc + Z.of_nat d)%Z) ds acc.
Proof.
  intro F. revert acc.
  induction F as [| d ds D F IH]; intro acc; cbn [numeral digits fold_left].
  - reflexivity.
  - rewrite (digit_of_digit_char d D). apply IH.
Qed.

(** Below 2^53 the nearest double is the integer itself. *)
Lemma Number_of_exact (a : Z) :
  (a < 2 ^ 53)%Z -> Number_of false a = Int a.
Proof.
  intro H. unfold Number_of, nearest_double.
  apply Z.ltb_lt in H. now rewrite H.
Qed.

(** [parseInt] of a numeral is the double nearest to its value in
    base 10. *)
Lemma parseInt10_numeral (ds : list nat) :
  ds <> [] -> Forall (fun d => (d < 10)%nat) ds ->
  parseInt10 (VStr (numeral ds)) = Number_of false (numeral_value ds).
Proof.
  intros N F. destruct ds as [| d ds]; [congruence |].
  pose proof (digits_numeral (d :: ds) 0 F) as V.
  inversion F as [| ? ? D _]; subst.
  unfold numeral_value. rewrite <- V. clear V F N.
  do 10 (destruct d as [| d]; [reflexivity |]). lia.
Qed.

(** C6: reading [ratelimit] throws exactly when the client has no response
    on record.  A client just built has none, and operations put a response
    on record only by a call that was answered: after any operations the
    record is what their events leave.  So for a client built without
    [refreshTokenInstant], whatever operations follow, [ratelimit] throws
    exactly when no call of its trace was answered.  With a response [r] on
    record it returns [parseInt(., 10)] of the headers [X-Ratelimit-Count]
    and [X-Ratelimit-Reset] of [r]: the double nearest to the value of a
    numeral in base 10, which below 2^53 is that value (so 200 and
    1700000000 for the headers ["200"] and ["1700000000"]), and [NaN], not
    an error, for a header that is absent. *)
Theorem ratelimit_reads_last_response :
  (forall self,
      (exists e, ratelimit self = Throw e) <-> lastResponse self = None)
  /\ (forall options w0,
        constructor net options = Normal w0 -> lastResponse (this w0) = None)
  /\ (forall w ops,
        let w' := perform_all net querystring_stringify ops w in
        exists events,
          trace w' = trace w ++ events
          /\ lastResponse (this w')
             = fold_left record events (lastResponse (this w))
          /\ ((exists e, ratelimit (this w') = Throw e)
              <-> lastResponse (this w) = None
                  /\ forall u i r, ~ In (Fetch u i (Responds r)) events))
  /\ (forall options w0 ops,
        constructor net options = Normal w0 ->
        FeedlyInit.refreshTokenInstant options = false ->
        let w := perform_all net querystring_stringify ops w0 in
        lastResponse (this w) = last_response (trace w)
        /\ ((exists e, ratelimit (this w) = Throw e)
            <-> forall u i r, ~ In (Fetch u i (Responds r)) (trace w)))
  /\ (forall self r,
        lastResponse self = Some r ->
        ratelimit self
        = Normal
            {| count := parseInt10 (Headers.get (Response.headers r) "X-Ratelimit-Count");
               reset := parseInt10 (Headers.get (Response.headers r) "X-Ratelimit-Reset") |})
  /\ (forall ds,
        ds <> [] -> Forall (fun d => (d < 10)%nat) ds ->
        parseInt10 (VStr (numeral ds)) = Number_of false (numeral_value ds)
        /\ ((numeral_value ds < 2 ^ 53)%Z ->
            parseInt10 (VStr (numeral ds)) = Int (numeral_value ds)))
  /\ (forall self status body,
        lastResponse self
        = Some {| Response.status := status;
                  Response.headers := [("X-Ratelimit-Count", "200");
                                       ("X-Ratelimit-Reset", "1700000000")];
                  Response.parsed := body |} ->
        ratelimit self = Normal {| count := Int 200; reset := Int 1700000000 |})
  /\ (forall h name,
        Headers.values h name = [] -> parseInt10 (Headers.get h name) = NaN).
Proof.
  assert (A : forall self,
             (exists e, ratelimit self = Throw e) <-> lastResponse self = None).
  { intro self. unfold ratelimit. destruct (lastResponse self); split.
    - intros [e H]. discriminate.
    - discriminate.
    - reflexivity.
    - intros _. eexists. reflexivity. }
  split; [exact A |].
  split; [exact constructor_lastResponse |].
  split; [| split; [| split; [| split; [| split]]]].
  - intros w ops. cbn zeta.
    destruct (perform_all_continues net querystring_stringify ops w)
      as (events & T & _ & _ & L).
    exists events. split; [exact T |]. split; [exact L |].
    now rewrite A, L, fold_record_none.
  - intros options w0 ops C I. cbn zeta.
    assert (R : on_record (perform_all net querystring_stringify ops w0)).
    { eapply on_record_continues;
        [eapply constructor_on_record; [exact C | exact I]
        | apply perform_all_continues]. }
    split; [exact R |].
    rewrite A, R. unfold last_response. rewrite fold_record_none. intuition.
  - intros self r H. unfold ratelimit. now rewrite H.
  - intros ds N F. split; [now apply parseInt10_numeral |].
    intro B. rewrite parseInt10_numeral by assumption.
    now apply Number_of_exact.
  - intros self status body H. unfold ratelimit. now rewrite H.
  - intros h name H. unfold Headers.get. now rewrite H.
Qed.

End RateLimits.

(* ================================================================== *)
(** ** The token state *)
(* ================================================================== *)

Section TokenState.

Variable net : nat -> FetchOutcome.
Variable querystring_stringify : list (string * Value) -> string.

Lemma lookup_assign_same (key : string) (v : Value)
  (fields : list (string * Value)) :
  lookup key (assign key v fields) = Some v.
Proof.
  induction fields as [| [k old] rest IH]; cbn.
  - now rewrite String.eqb_refl.
  - destruct (k =? key)%string eqn:E; cbn; now rewrite E.
Qed.

Lemma lookup_assign_other (key other : string) (v : Value)
  (fields : list (string * Value)) :
  other <> key -> lookup other (assign key v fields) = lookup other fields.
Proof.
  intro N. induction fields as [| [k old] rest IH]; cbn.
  - destruct (key =? other)%string eqn:E; [| reflexivity].
    apply String.eqb_eq in E. congruence.
  - destruct (k =? key)%string eqn:E; cbn.
    + apply String.eqb_eq in E. subst k.
      destruct (key =? other)%string eqn:E'; [| reflexivity].
      apply String.eqb_eq in E'. congruence.
    + now rewrite IH.
Qed.

(** A refresh that changes the token has logged its confirmation. *)
Lemma refreshAuthToken_change (w : World) :
  accessToken (this (fst (refreshAuthToken net w))) <> accessToken (this w) ->
  exists events,
    trace (fst (refreshAuthToken net w)) = trace w ++ events
    /\ existsb confirmed_refresh events = true.
Proof.
  refresh_cases; intro H; try (now elim H).
  cbn. eexists. split; reflexivity.
Qed.

Lemma request_change (url : string) (options : RequestInit.t) (w : World) :
  accessToken (this (fst (request net url options w))) <> accessToken (this w) ->
  exists events,
    trace (fst (request net url options w)) = trace w ++ events
    /\ existsb confirmed_refresh events = true.
Proof.
  rewrite request_eq.
  unfold accessToken at 1. rewrite dispatch_options.
  destruct (_ && _).
  - intro H. destruct (refreshAuthToken_change w H) as (e1 & T1 & C1).
    destruct (dispatch_continues net url options (fst (refreshAuthToken net w)))
      as (e2 & T2 & _).
    exists (e1 ++ e2). split.
    + now rewrite T2, T1, app_assoc.
    + rewrite existsb_app, C1. reflexivity.
  - intro H. now elim H.
Qed.

Lemma perform_keeps_token (op : Op) (w : World) :
  is_refresh op = false -> truthy (accessToken (this w)) = true ->
  accessToken (this (perform net querystring_stringify op w))
  = accessToken (this w).
Proof.
  intros R T.
  destruct op; try discriminate; try reflexivity;
    unfold perform, profile, collections, subscriptions, streams;
    apply request_keeps_token; now left.
Qed.

Lemma perform_all_keeps_token (ops : list Op) (w : World) :
  forallb (fun op => negb (is_refresh op)) ops = true ->
  truthy (accessToken (this w)) = true ->
  accessToken (this (perform_all net querystring_stringify ops w))
  = accessToken (this w).
Proof.
  revert w. induction ops as [| op ops IH]; intros w F T.
  - reflexivity.
  - cbn [forallb] in F.
    apply andb_prop in F as [R F]. apply negb_true_iff in R.
    pose proof (perform_keeps_token op w R T) as K.
    change (perform_all net querystring_stringify (op :: ops) w)
      with (perform_all net querystring_stringify ops
              (perform net querystring_stringify op w)).
    rewrite IH; [exact K | exact F | now rewrite K].
Qed.

(** C9, as amended.  No operation changes the base URL or the refresh
    token, one at a time or in any sequence.  The getters and [ratelimit]
    change nothing.  An operation other than [refreshAuthToken] keeps the
    access token while one is held, and [request] keeps it at the token
    path.  Whenever an operation does change the access token, a refresh
    has succeeded within it: its confirmation is among the events logged. *)
Theorem token_state_frame (op : Op) (w : World) :
  let w' := perform net querystring_stringify op w in
  baseUrl (this w') = baseUrl (this w)
  /\ refreshToken (this w') = refreshToken (this w)
  /\ (forall ops,
        baseUrl (this (perform_all net querystring_stringify ops w))
        = baseUrl (this w)
        /\ refreshToken (this (perform_all net querystring_stringify ops w))
           = refreshToken (this w))
  /\ (is_getter op = true -> w' = w)
  /\ (is_refresh op = false -> truthy (accessToken (this w)) = true ->
        accessToken (this w') = accessToken (this w))
  /\ (forall options, op = CallRequest "/v3/auth/token" options ->
        accessToken (this w') = accessToken (this w))
  /\ (accessToken (this w') <> accessToken (this w) ->
        exists events,
          trace w' = trace w ++ events
          /\ existsb confirmed_refresh events = true).
Proof.
  cbn zeta.
  destruct (perform_continues net querystring_stringify op w) as (? & _ & B & R & _).
  split; [exact B |]. split; [exact R |].
  split; [| split; [| split; [| split]]].
  - intro ops.
    now destruct (perform_all_continues net querystring_stringify ops w)
      as (? & _ & B' & R' & _).
  - destruct op; try discriminate; reflexivity.
  - apply perform_keeps_token.
  - intros options ->. apply request_keeps_token. now right.
  - destruct op; unfold perform, profile, collections, subscriptions, streams;
      try apply request_change; try (intro H; now elim H).
    apply refreshAuthToken_change.
Qed.

(** C4, as amended.  A refresh whose response has a JSON object for body,
    with a string [t] under [access_token], stores [t] and logs a copy of
    the body in which [access_token] holds ["String[<length of t>]"] and
    every other field is as received.  While [t] is not empty and
    [refreshAuthToken] is not called again, every later request whose
    options bring no headers sends [Authorization: OAuth t]. *)
Theorem refresh_stores_and_redacts (w : World) (r : Response.t)
  (fields : list (string * Value)) (t : string) :
  net (next_call w) = Responds r ->
  Response.parsed r = Some (VObj fields) ->
  lookup "access_token" fields = Some (VStr t) ->
  let w1 := fst (refreshAuthToken net w) in
  let copy := assign "access_token" (VStr (placeholder t)) fields in
  accessToken (this w1) = VStr t
  /\ trace w1
     = trace w
       ++ [Fetch (baseUrl (this w) ++ "/v3/auth/token")%string
             (refresh_init (this w)) (Responds r);
           ConsoleInfo "Refresh of tokens was successful: %o" (VObj copy)]
  /\ lookup "access_token" copy = Some (VStr (placeholder t))
  /\ (forall key, key <> "access_token" -> lookup key copy = lookup key fields)
  /\ (t <> EmptyString ->
      forall ops url options,
        forallb (fun op => negb (is_refresh op)) ops = true ->
        RequestInit.headers options = None ->
        let w2 := perform_all net querystring_stringify ops w1 in
        exists before sent,
          calls (trace (fst (request net url options w2)))
          = before ++ [((baseUrl (this w) ++ url)%string, sent)]
          /\ header "Authorization" sent = Some ("OAuth " ++ t)%string).
Proof.
  intros N P L. cbn zeta.
  assert (E : refreshAuthToken net w
              = ({| this := set_accessToken (VStr t) (set_lastResponse r (this w));
                    trace := trace w
                      ++ [Fetch (baseUrl (this w) ++ "/v3/auth/token")%string
                            (refresh_init (this w)) (Responds r);
                          ConsoleInfo "Refresh of tokens was successful: %o"
                            (VObj (assign "access_token" (VStr (placeholder t))
                                     fields))] |},
                 Resolved tt)).
  { rewrite refreshAuthToken_eq. cbn zeta. rewrite N, P. cbn. now rewrite L. }
  rewrite E. cbn [fst this trace].
  split; [reflexivity |]. split; [reflexivity |].
  split; [apply lookup_assign_same |].
  split; [intros key K; now apply lookup_assign_other |].
  intros T ops url options F H.
  set (w1 := {| this := _; trace := _ |}).
  assert (T1 : truthy (accessToken (this w1)) = true).
  { cbn. destruct t; [congruence | reflexivity]. }
  pose proof (perform_all_keeps_token ops w1 F T1) as K.
  set (w2 := perform_all net querystring_stringify ops w1) in *.
  assert (T2 : truthy (accessToken (this w2)) = true) by now rewrite K.
  pose proof (request_without_refresh net url options w2 (or_introl T2)) as C.
  assert (B : baseUrl (this w2) = baseUrl (this w)).
  { subst w2.
    now destruct (perform_all_continues net querystring_stringify ops w1)
      as (? & _ & B & _). }
  eexists _, _. split.
  - rewrite C, dispatch_calls, B. reflexivity.
  - rewrite header_default by exact H. now rewrite K.
Qed.

End TokenState.

(* ================================================================== *)
(** ** The properties on the example clients *)
(* ================================================================== *)

(** [Example.client] is what the constructor builds from [Example.init];
    it holds no access token. *)
Lemma example_client_built (net : nat -> FetchOutcome) :
  constructor net Example.init = Normal Example.client
  /\ accessToken (this Example.client) = VNull
  /\ constructor net Example.init_with_token = Normal Example.client_with_token
  /\ accessToken (this Example.client_with_token) = VStr "YourSecr3tAccessT0ken".
Proof.
  repeat split.
Qed.

(** C1 does not hold of every options object: the client holds no token,
    the refresh obtains ["abc123"], and the request, whose options bring
    [{"Content-Type": "application/json"}] for headers, is sent without an
    [Authorization] header. *)
Lemma request_with_headers_omits_token :
  let w' := fst (request Example.net_token "/v3/profile" Example.content_type
                   Example.client) in
  truthy (accessToken (this Example.client)) = false
  /\ accessToken (this w') = VStr "abc123"
  /\ exists sent,
       calls (trace w')
       = [("https://cloud.feedly.com/v3/auth/token",
           refresh_init (this Example.client));
          ("https://cloud.feedly.com/v3/profile", sent)]
       /\ RequestInit.headers sent = Some [("Content-Type", "application/json")]
       /\ header "Authorization" sent = None.
Proof.
  cbn zeta. split; [reflexivity |]. split; [reflexivity |].
  eexists. split; [reflexivity |]. split; reflexivity.
Qed.

(** C1 on the example clients: without a token, the refresh and then the
    call, which carries the token obtained; with a token, the call alone. *)
Lemma request_refresh_policy_witness :
  let refresh_call :=
    ("https://cloud.feedly.com/v3/auth/token", refresh_init (this Example.client)) in
  let profile_call (token : string) :=
    ("https://cloud.feedly.com/v3/profile",
     {| RequestInit.method := None;
        RequestInit.headers := Some [("Authorization", ("OAuth " ++ token)%string)];
        RequestInit.body := None |}) in
  calls (trace (fst (request Example.net_token "/v3/profile" RequestInit.empty
                       Example.client)))
  = [refresh_call; profile_call "abc123"]
  /\ calls (trace (fst (request Example.net_token "/v3/profile" RequestInit.empty
                          Example.client_with_token)))
     = [profile_call "YourSecr3tAccessT0ken"].
Proof.
  cbn zeta. split.
  - destruct (request_refresh_policy Example.net_token "/v3/profile"
                RequestInit.empty Example.client) as [H _].
    destruct (H eq_refl ltac:(discriminate)) as (_ & C & _). exact C.
  - destruct (request_refresh_policy Example.net_token "/v3/profile"
                RequestInit.empty Example.client_with_token) as [_ H].
    destruct (H (or_introl eq_refl)) as (_ & C & _). exact C.
Defined.


(** C4 does not hold of every body, nor of every later request: this body
    holds the token ["abc123"] under [id] too, and the confirmation logged
    shows it there; and a later request whose options bring headers of
    their own is sent without the token. *)
Lemma refresh_log_repeats_token :
  let w1 := fst (refreshAuthToken Example.net_echo Example.client) in
  let w2 := fst (request Example.net_echo "/v3/profile" Example.content_type w1) in
  accessToken (this w1) = VStr "abc123"
  /\ trace w1
     = [Fetch "https://cloud.feedly.com/v3/auth/token"
          (refresh_init (this Example.client))
          (Responds (Example.response (Some Example.echoing_body)));
        ConsoleInfo "Refresh of tokens was successful: %o"
          (VObj [("id", VStr "abc123"); ("access_token", VStr "String[6]")])]
  /\ existsb (printed "abc123") (trace w1) = true
  /\ exists sent,
       calls (trace w2)
       = [("https://cloud.feedly.com/v3/auth/token",
           refresh_init (this Example.client));
          ("https://cloud.feedly.com/v3/profile", sent)]
       /\ header "Authorization" sent = None.
Proof.
  cbn zeta. split; [reflexivity |]. split; [reflexivity |].
  split; [reflexivity |]. eexists. split; reflexivity.
Qed.

(** C4 on the example client: the token is stored, the copy logged holds
    the placeholder, and the next request carries the token. *)
Lemma refresh_stores_and_redacts_witness :
  let w1 := fst (refreshAuthToken Example.net_token Example.client) in
  accessToken (this w1) = VStr "abc123"
  /\ trace w1
     = [Fetch "https://cloud.feedly.com/v3/auth/token"
          (refresh_init (this Example.client))
          (Responds (Example.response (Some Example.token_body)));
        ConsoleInfo "Refresh of tokens was successful: %o"
          (VObj [("access_token", VStr "String[6]"); ("expires_in", VNum 604800)])]
  /\ exists before sent,
       calls (trace (fst (request Example.net_token "/v3/profile"
                            RequestInit.empty w1)))
       = before ++ [("https://cloud.feedly.com/v3/profile", sent)]
       /\ header "Authorization" sent = Some "OAuth abc123".
Proof.
  cbn zeta.
  destruct (refresh_stores_and_redacts Example.net_token Example.stringify
              Example.client (Example.response (Some Example.token_body))
              [("access_token", VStr "abc123"); ("expires_in", VNum 604800)]
              "abc123" eq_refl eq_refl eq_refl)
    as (A & T & _ & _ & N).
  split; [exact A |]. split; [exact T |].
  exact (N ltac:(discriminate) [] "/v3/profile" RequestInit.empty eq_refl eq_refl).
Defined.

(** C6 on the example client: nothing on record at first, and after a
    profile call the limits of its response. *)
Lemma ratelimit_reads_last_response_witness :
  ratelimit (this Example.client)
  = Throw (Error "Cannot get rate limits: There was no response yet")
  /\ lastResponse (this Example.client) = None
  /\ ratelimit
       (this (perform_all Example.net_token Example.stringify [CallProfile]
                Example.client))
     = Normal {| count := Int 200; reset := Int 1700000000 |}
  /\ parseInt10 (VStr "1700000000") = Int 1700000000
  /\ parseInt10 (Headers.get [("Content-Type", "text/html")] "X-Ratelimit-Count")
     = NaN.
Proof.
  destruct (ratelimit_reads_last_response Example.net_token Example.stringify)
    as (A & _ & _ & _ & _ & D & X & M).
  split; [reflexivity |].
  split; [apply (proj1 (A (this Example.client))); eexists; reflexivity |].
  split; [apply (X _ 200%Z (Some Example.profile_body)); reflexivity |].
  split.
  - apply (D [1; 7; 0; 0; 0; 0; 0; 0; 0; 0]%nat);
      [discriminate | repeat constructor | reflexivity].
  - apply M. reflexivity.
Defined.

(** C7 on the example client with a token: a response whose body is not
    JSON is on record all the same; a call that fails leaves the record. *)
Lemma request_records_response_witness :
  (lastResponse
     (this (fst (request Example.net_html "/v3/profile" RequestInit.empty
                   Example.client_with_token)))
   = Some (Example.response None)
   /\ snd (request Example.net_html "/v3/profile" RequestInit.empty
             Example.client_with_token)
      = Resolved None)
  /\ lastResponse
       (this (fst (request Example.net_down "/v3/profile" RequestInit.empty
                     Example.client_with_token)))
     = lastResponse (this Example.client_with_token).
Proof.
  split.
  - destruct (request_records_response Example.net_html "/v3/profile"
                RequestInit.empty Example.client_with_token) as (_ & _ & _ & H).
    exact (H (Example.response None) (or_introl eq_refl) eq_refl eq_refl).
  - destruct (request_records_response Example.net_down "/v3/profile"
                RequestInit.empty Example.client_with_token) as (_ & H & _).
    exact (H (or_introl eq_refl)).
Defined.

(** C9 does not hold of a client without a token: after [profile()] it
    holds ["abc123"]. *)
Lemma profile_changes_token :
  accessToken (this Example.client) = VNull
  /\ accessToken
       (this (perform Example.net_token Example.stringify CallProfile
                Example.client))
     = VStr "abc123".
Proof.
  split; reflexivity.
Qed.

(** C9 on the example clients: with a token held [profile()] keeps it; and
    where [profile()] changed it, the refresh is in the log. *)
Lemma token_state_frame_witness :
  accessToken
    (this (perform Example.net_token Example.stringify CallProfile
             Example.client_with_token))
  = VStr "YourSecr3tAccessT0ken"
  /\ exists events,
       trace (perform Example.net_token Example.stringify CallProfile
                Example.client)
       = trace Example.client ++ events
       /\ existsb confirmed_refresh events = true.
Proof.
  split.
  - destruct (token_state_frame Example.net_token Example.stringify CallProfile
                Example.client_with_token) as (_ & _ & _ & _ & K & _).
    exact (K eq_refl eq_refl).
  - destruct (token_state_frame Example.net_token Example.stringify CallProfile
                Example.client) as (_ & _ & _ & _ & _ & _ & C).
    apply C. discriminate.
Defined.

(** C10 on the example client: with [{"Content-Type": "application/json"}]
    for headers the call has no [Authorization] header. *)
Lemma request_headers_replace_default_witness :
  exists before init,
    calls (trace (fst (request Example.net_token "/v3/profile"
                         Example.content_type Example.client_with_token)))
    = before ++ [("https://cloud.feedly.com/v3/profile", init)]
    /\ RequestInit.headers init = Some [("Content-Type", "application/json")]
    /\ header "Authorization" init = None.
Proof.
  exact (request_headers_replace_default Example.net_token "/v3/profile"
           Example.content_type Example.client_with_token
           [("Content-Type", "application/json")] eq_refl).
Defined.

(* ================================================================== *)
(** ** The constructor and the first request *)
(* ================================================================== *)

Section FirstRequest.

Variable net : nat -> FetchOutcome.

(** What the constructor returns when it returns: a client with the tokens
    of the options and nothing on record, the call of the refresh made if
    it started one. *)
Lemma constructor_inv (options : FeedlyInit.t) (w : World) :
  constructor net options = Normal w ->
  exists self,
    accessToken self = nullable (FeedlyInit.accessToken options)
    /\ refreshToken self = nullable (FeedlyInit.refreshToken options)
    /\ truthy (refreshToken self) = true
    /\ lastResponse self = None
    /\ w = if FeedlyInit.refreshTokenInstant options
           then refreshAuthToken_started net (fresh self)
           else fresh self.
Proof.
  unfold constructor. cbn zeta.
  set (self := if _ =? "/" then _ else _).
  assert (S : accessToken self = nullable (FeedlyInit.accessToken options)
              /\ refreshToken self = nullable (FeedlyInit.refreshToken options)
              /\ lastResponse self = None
              /\ Options.refreshTokenInstant (Internals.options self)
                 = FeedlyInit.refreshTokenInstant options).
  { subst self. destruct (_ =? "/"); repeat split. }
  destruct S as (A & R & L & I). rewrite I.
  destruct (truthy (refreshToken self)) eqn:T; [| discriminate]. cbn.
  intro H. exists self. repeat split; try assumption.
  destruct (FeedlyInit.refreshTokenInstant options); now injection H as <-.
Qed.

Lemma refreshAuthToken_lastResponse (w : World) :
  lastResponse (this (fst (refreshAuthToken net w)))
  = match net (next_call w) with
    | Responds r => Some r
    | Fails _ => lastResponse (this w)
    end.
Proof.
  refresh_cases; reflexivity.
Qed.

Lemma refreshAuthToken_refreshToken (w : World) :
  refreshToken (this (fst (refreshAuthToken net w))) = refreshToken (this w).
Proof.
  now destruct (refreshAuthToken_continues net w) as (? & _ & _ & E & _).
Qed.

(** X2: the constructor does not wait for the refresh it starts.  A
    constructed client holds the refresh token of its options, which is not
    empty, the access token of the options ([null] when there is none) and
    no response on record.  Built without [refreshTokenInstant] it has made
    no call and printed nothing.  Built with it, it has made one call, the
    refresh, and nothing else has happened yet: a request made right away
    by a client without a token refreshes again, three calls in all; and
    once the started call settles, with nothing in between, the client is
    as after a [refreshAuthToken] that was awaited. *)
Theorem constructor_initial_state (options : FeedlyInit.t) (w : World) :
  constructor net options = Normal w ->
  refreshToken (this w) = nullable (FeedlyInit.refreshToken options)
  /\ truthy (refreshToken (this w)) = true
  /\ accessToken (this w) = nullable (FeedlyInit.accessToken options)
  /\ lastResponse (this w) = None
  /\ (FeedlyInit.refreshTokenInstant options = false -> trace w = [])
  /\ (FeedlyInit.refreshTokenInstant options = true ->
        trace w
        = [Fetch (baseUrl (this w) ++ "/v3/auth/token")%string
             {| RequestInit.method := Some "POST";
                RequestInit.headers := Some [];
                RequestInit.body :=
                  Some (RequestInit.JSON_stringify
                          (VObj [("refresh_token",
                                  nullable (FeedlyInit.refreshToken options));
                                 ("client_id", VStr "feedlydev");
                                 ("client_secret", VStr "feedlydev");
                                 ("grant_type", VStr "refresh_token")])) |}
             (net 0)]
        /\ (forall url init,
              FeedlyInit.accessToken options = None ->
              url <> "/v3/auth/token" ->
              List.length (calls (trace (fst (request net url init w)))) = 3%nat)
        /\ refreshAuthToken_settles (net 0) w
           = refreshAuthToken net {| this := this w; trace := [] |}).
Proof.
  intro C. destruct (constructor_inv options w C) as (self & A & R & T & L & W).
  destruct (FeedlyInit.refreshTokenInstant options); subst w;
    cbn [this fresh refreshAuthToken_started fetch_started trace app].
  - repeat split; try assumption; try discriminate.
    + unfold refresh_init. now rewrite R.
    + intros url init N U.
      assert (F : truthy (accessToken
                            (this (refreshAuthToken_started net (fresh self))))
                  = false).
      { cbn. rewrite A, N. reflexivity. }
      rewrite (request_after_refresh net url init _ F U), dispatch_calls,
        refreshAuthToken_calls.
      cbn. reflexivity.
    + now rewrite refreshAuthToken_in_two_steps.
  - repeat split; try assumption; discriminate.
Qed.

(** X3: an access token in the options spares the first request its
    refresh.  A client built, without [refreshTokenInstant], from options
    with a non-empty access token makes one call for its first request and
    builds it with that token; built from options with no access token, or
    an empty one, it makes two, the refresh first. *)
Theorem supplied_token_spares_refresh (options : FeedlyInit.t) (w : World)
  (url : string) (init : RequestInit.t) :
  constructor net options = Normal w ->
  FeedlyInit.refreshTokenInstant options = false ->
  let own (token : Value) :=
    ((baseUrl (this w) ++ url)%string,
     RequestInit.Object_assign (default_init token) init) in
  match FeedlyInit.accessToken options with
  | Some (String c s) =>
      calls (trace (fst (request net url init w))) = [own (VStr (String c s))]
  | _ =>
      url <> "/v3/auth/token" ->
      calls (trace (fst (request net url init w)))
      = [((baseUrl (this w) ++ "/v3/auth/token")%string, refresh_init (this w));
         own (accessToken (this (fst (refreshAuthToken net w))))]
  end.
Proof.
  intros C I. cbn zeta.
  destruct (constructor_inv options w C) as (self & A0 & _ & _ & _ & W).
  rewrite I in W.
  assert (T : trace w = []) by now rewrite W.
  assert (A : accessToken (this w) = nullable (FeedlyInit.accessToken options))
    by now rewrite W.
  clear self A0 W.
  assert (Two : truthy (accessToken (this w)) = false ->
                url <> "/v3/auth/token" ->
                calls (trace (fst (request net url init w)))
                = [((baseUrl (this w) ++ "/v3/auth/token")%string,
                    refresh_init (this w));
                   ((baseUrl (this w) ++ url)%string,
                    RequestInit.Object_assign
                      (default_init
                         (accessToken (this (fst (refreshAuthToken net w)))))
                      init)]).
  { intros N U.
    rewrite (request_after_refresh net url init w N U), dispatch_calls,
      refreshAuthToken_calls, refreshAuthToken_baseUrl, T.
    reflexivity. }
  destruct (FeedlyInit.accessToken options) as [[| c s] |]; cbn in A.
  - apply Two. now rewrite A.
  - rewrite request_without_refresh by (left; now rewrite A).
    now rewrite dispatch_calls, T, A.
  - apply Two. now rewrite A.
Qed.

End FirstRequest.

(* ================================================================== *)
(** ** Refreshing: what is accepted, what is retried *)
(* ================================================================== *)

Section Refreshing.

Variable net : nat -> FetchOutcome.
Variable querystring_stringify : list (string * Value) -> string.

Lemma next_call_calls (w : World) : next_call w = List.length (calls (trace w)).
Proof.
  unfold next_call, calls.
  induction (trace w) as [| e t IH]; [reflexivity |].
  destruct e; cbn; now rewrite IH.
Qed.

Lemma refreshAuthToken_next_call (w : World) :
  next_call (fst (refreshAuthToken net w)) = S (next_call w).
Proof.
  rewrite !next_call_calls, refreshAuthToken_calls, length_app. cbn. lia.
Qed.

Lemma request_refreshToken (url : string) (init : RequestInit.t) (w : World) :
  refreshToken (this (fst (request net url init w))) = refreshToken (this w).
Proof.
  now destruct (request_continues net url init w) as (? & _ & _ & E & _).
Qed.


(** X4: a refresh that obtains no token is tried again by the next request.
    The request that ran it is sent all the same, built with the token the
    client held (so [OAuth null] for a client built without one), and
    leaves that token in place; the request after it starts with a refresh
    of its own. *)
Theorem failed_refresh_is_retried (url1 url2 : string)
  (init1 init2 : RequestInit.t) (w : World) :
  truthy (accessToken (this w)) = false ->
  url1 <> "/v3/auth/token" -> url2 <> "/v3/auth/token" ->
  obtained (net (next_call w)) = None ->
  let w1 := fst (request net url1 init1 w) in
  let refresh :=
    ((baseUrl (this w) ++ "/v3/auth/token")%string, refresh_init (this w)) in
  accessToken (this w1) = accessToken (this w)
  /\ calls (trace w1)
     = calls (trace w)
       ++ [refresh;
           ((baseUrl (this w) ++ url1)%string,
            RequestInit.Object_assign (default_init (accessToken (this w))) init1)]
  /\ (accessToken (this w) = VNull -> RequestInit.headers init1 = None ->
        header "Authorization"
          (RequestInit.Object_assign (default_init (accessToken (this w))) init1)
        = Some "OAuth null")
  /\ calls (trace (fst (request net url2 init2 w1)))
     = calls (trace w1)
       ++ [refresh;
           ((baseUrl (this w) ++ url2)%string,
            RequestInit.Object_assign
              (default_init (accessToken (this (fst (refreshAuthToken net w1)))))
              init2)].
Proof.
  intros N U1 U2 O. cbn zeta.
  assert (K : accessToken (this (fst (refreshAuthToken net w)))
              = accessToken (this w)).
  { now rewrite refreshAuthToken_token, O. }
  assert (A : accessToken (this (fst (request net url1 init1 w)))
              = accessToken (this w)).
  { rewrite (request_after_refresh net url1 init1 w N U1).
    unfold accessToken at 1. rewrite dispatch_options. exact K. }
  split; [exact A |]. split; [| split].
  - rewrite (request_after_refresh net url1 init1 w N U1), dispatch_calls,
      refreshAuthToken_calls, refreshAuthToken_baseUrl, K, <- app_assoc.
    reflexivity.
  - intros Z H. rewrite header_default by exact H. now rewrite Z.
  - set (w1 := fst (request net url1 init1 w)) in *.
    assert (N1 : truthy (accessToken (this w1)) = false) by now rewrite A.
    rewrite (request_after_refresh net url2 init2 w1 N1 U2), dispatch_calls,
      refreshAuthToken_calls, refreshAuthToken_baseUrl, <- app_assoc.
    unfold refresh_init. subst w1.
    now rewrite request_baseUrl, request_refreshToken.
Qed.


(** X6: a JSON body that is not an object with a usable [access_token] (an
    error object, [null], a string, an object whose [access_token] is
    [null]) makes the refresh fail on a property read.  The response is on
    record, the token is the one held before, and what is logged under
    ["Failed to refresh token"] is that TypeError, not the body. *)
Theorem refresh_rejects_body_without_token (w : World) (r : Response.t)
  (body : Value) :
  net (next_call w) = Responds r ->
  Response.parsed r = Some body ->
  (forall fields token,
      body = VObj fields -> lookup "access_token" fields = Some token ->
      usable token = false) ->
  let w1 := fst (refreshAuthToken net w) in
  accessToken (this w1) = accessToken (this w)
  /\ lastResponse (this w1) = Some r
  /\ exists e,
       trace w1
       = trace w
         ++ [Fetch (baseUrl (this w) ++ "/v3/auth/token")%string
               (refresh_init (this w)) (Responds r);
             ConsoleError "Failed to refresh token" e]
       /\ (e = CannotReadProperty "access_token" body
           \/ e = CannotReadProperty "length" VUndefined
           \/ e = CannotReadProperty "length" VNull).
Proof.
  intros N P H. cbn zeta.
  rewrite refreshAuthToken_eq. cbn zeta. rewrite N, P.
  destruct body as [| | b | z | s | items | fields]; cbn;
    try (repeat split; eexists; split; [reflexivity | auto]).
  destruct (lookup "access_token" fields) as [token |] eqn:L; cbn.
  - specialize (H fields token eq_refl L).
    destruct token; try discriminate; cbn;
      (repeat split; eexists; split; [reflexivity | auto]).
  - repeat split; eexists; split; [reflexivity | auto].
Qed.

(** X7: when a request has refreshed and its own call then fails, the rate
    limit read afterwards is that of the response to the refresh: the
    request resolves with nothing, and [ratelimit] answers from the token
    endpoint's headers. *)
Theorem ratelimit_after_failed_call (url : string) (init : RequestInit.t)
  (w : World) (r : Response.t) (message : string) :
  truthy (accessToken (this w)) = false -> url <> "/v3/auth/token" ->
  net (next_call w) = Responds r ->
  net (S (next_call w)) = Fails message ->
  ratelimit (this (fst (request net url init w))) = Normal (limits r)
  /\ snd (request net url init w) = Resolved None.
Proof.
  intros N U R F.
  rewrite (request_after_refresh net url init w N U).
  pose proof (dispatch_lastResponse net url init (fst (refreshAuthToken net w))) as L.
  rewrite refreshAuthToken_next_call, F, refreshAuthToken_lastResponse, R in L.
  split.
  - unfold ratelimit. now rewrite L.
  - rewrite dispatch_eq. cbn zeta. now rewrite refreshAuthToken_next_call, F.
Qed.

(** X8: the response a request resolves with is the one on record
    afterwards, its body is that response's parsed body, and [ratelimit]
    read next answers from its headers.  A request that resolves with
    nothing has logged an error under its path as its last act. *)
Theorem result_is_on_record (url : string) (init : RequestInit.t) (w : World) :
  let w' := fst (request net url init w) in
  (forall result,
      snd (request net url init w) = Resolved (Some result) ->
      lastResponse (this w') = Some (response result)
      /\ Response.parsed (response result) = Some (body result)
      /\ ratelimit (this w') = Normal (limits (response result)))
  /\ (snd (request net url init w) = Resolved None ->
        exists before e,
          trace w'
          = before ++ [ConsoleError ("Failed to make call to " ++ url)%string e]).
Proof.
  cbn zeta. rewrite request_eq.
  set (w1 := if _ && _ then _ else _). clearbody w1.
  split.
  - intro result. dispatch_cases; cbn; intro H; try discriminate.
    injection H as <-. cbn. repeat split. exact P.
  - dispatch_cases; cbn; intro H; try discriminate.
    + eexists (trace w1 ++ [_]), _. now rewrite <- app_assoc.
    + eexists (trace w1 ++ [_]), _. now rewrite <- app_assoc.
Qed.

(** X9: whatever has been done with a client since it was built, a refresh
    sends the refresh token of the options it was built from, to the token
    path under the base URL it was built with. *)
Theorem refresh_sends_the_refresh_token (options : FeedlyInit.t) (w0 : World)
  (ops : list Op) :
  constructor net options = Normal w0 ->
  let w := perform_all net querystring_stringify ops w0 in
  calls (trace (fst (refreshAuthToken net w)))
  = calls (trace w)
    ++ [((baseUrl (this w0) ++ "/v3/auth/token")%string,
         {| RequestInit.method := Some "POST";
            RequestInit.headers := Some [];
            RequestInit.body :=
              Some (RequestInit.JSON_stringify
                      (VObj [("refresh_token",
                              nullable (FeedlyInit.refreshToken options));
                             ("client_id", VStr "feedlydev");
                             ("client_secret", VStr "feedlydev");
                             ("grant_type", VStr "refresh_token")])) |})].
Proof.
  intro C. cbn zeta.
  destruct (constructor_inv net options w0 C) as (self & _ & R & _ & _ & W).
  assert (R0 : refreshToken (this w0) = nullable (FeedlyInit.refreshToken options)).
  { rewrite W. destruct (FeedlyInit.refreshTokenInstant options); exact R. }
  destruct (perform_all_continues net querystring_stringify ops w0)
    as (? & _ & B & T & _).
  rewrite refreshAuthToken_calls, B. unfold refresh_init. now rewrite T, R0.
Qed.

End Refreshing.

(* ================================================================== *)
(** ** The endpoint methods *)
(* ================================================================== *)

Section Endpoints.

Variable net : nat -> FetchOutcome.
Variable querystring_stringify : list (string * Value) -> string.

(** An endpoint method is [request] with no options, at a path that is not
    the token path. *)
Lemma endpoint_is_request (op : Op) (w : World) :
  is_endpoint op = true ->
  exists path,
    perform net querystring_stringify op w
    = fst (request net path RequestInit.empty w)
    /\ path <> "/v3/auth/token"
    /\ path
       = match op with
         | CallProfile => "/v3/profile"
         | CallCollections => "/v3/collections"
         | CallSubscriptions => "/v3/subscriptions"
         | CallStreams streamId options =>
             ("/v3/streams/contents?"
                ++ querystring_stringify
                     (assign "streamId" (VStr streamId) options))%string
         | _ => path
         end.
Proof.
  destruct op; try discriminate; intros _; eexists;
    (split; [reflexivity | split; [discriminate | reflexivity]]).
Qed.

Lemma assign_keys_present (key : string) (v : Value)
  (fields : list (string * Value)) :
  In key (keys fields) -> keys (assign key v fields) = keys fields.
Proof.
  induction fields as [| [k old] rest IH]; cbn; [tauto |].
  intros [E | I].
  - subst k. now rewrite String.eqb_refl.
  - destruct (k =? key)%string; cbn; [reflexivity |].
    f_equal. now apply IH.
Qed.

Lemma assign_keys_absent (key : string) (v : Value)
  (fields : list (string * Value)) :
  ~ In key (keys fields) -> keys (assign key v fields) = keys fields ++ [key].
Proof.
  induction fields as [| [k old] rest IH]; cbn; [reflexivity |].
  intro N. destruct (k =? key)%string eqn:E.
  - apply String.eqb_eq in E. tauto.
  - cbn. f_equal. apply IH. tauto.
Qed.

(** X10: the call an endpoint method makes for itself goes to its path
    under the base URL with no method, no body and one header,
    [Authorization: OAuth] followed by the token held at that moment; it is
    the last call made.  While a token is held it is the only call;
    otherwise the refresh goes first, since no endpoint path is the token
    path. *)
Theorem endpoints_send_the_token (op : Op) (w : World) :
  is_endpoint op = true ->
  let w' := perform net querystring_stringify op w in
  exists before path,
    calls (trace w')
    = before
      ++ [((baseUrl (this w) ++ path)%string,
           {| RequestInit.method := None;
              RequestInit.headers :=
                Some [("Authorization",
                       ("OAuth " ++ ToString (accessToken (this w')))%string)];
              RequestInit.body := None |})]
    /\ path
       = match op with
         | CallProfile => "/v3/profile"
         | CallCollections => "/v3/collections"
         | CallSubscriptions => "/v3/subscriptions"
         | CallStreams streamId options =>
             ("/v3/streams/contents?"
                ++ querystring_stringify
                     (assign "streamId" (VStr streamId) options))%string
         | _ => path
         end
    /\ before
       = if truthy (accessToken (this w))
         then calls (trace w)
         else calls (trace w)
              ++ [((baseUrl (this w) ++ "/v3/auth/token")%string,
                   refresh_init (this w))].
Proof.
  intro E. cbn zeta.
  destruct (endpoint_is_request op w E) as (path & P & N & M).
  rewrite P. eexists _, path. split; [| split; [exact M | reflexivity]].
  destruct (truthy (accessToken (this w))) eqn:T.
  - rewrite (request_without_refresh net path RequestInit.empty w (or_introl T)).
    rewrite dispatch_calls. unfold accessToken at 2.
    now rewrite dispatch_options.
  - rewrite (request_after_refresh net path RequestInit.empty w T N).
    rewrite dispatch_calls, refreshAuthToken_calls, refreshAuthToken_baseUrl.
    unfold accessToken at 2. now rewrite dispatch_options.
Qed.

(** X11: the query [streams] hands to [querystring.stringify] is the
    options of the caller with [streamId] set to the stream asked for: a
    [streamId] among the options is overwritten where it stands, otherwise
    the key comes last; every other option is passed as given, and nothing
    is added, so with no options the query is the stream id alone. *)
Theorem streams_query (streamId : string) (options : list (string * Value))
  (w : World) :
  let query := assign "streamId" (VStr streamId) options in
  (exists before init,
      calls (trace (fst (streams net querystring_stringify streamId options w)))
      = before
        ++ [((baseUrl (this w) ++ "/v3/streams/contents?"
                ++ querystring_stringify query)%string, init)])
  /\ lookup "streamId" query = Some (VStr streamId)
  /\ (forall key, key <> "streamId" -> lookup key query = lookup key options)
  /\ (In "streamId" (keys options) -> keys query = keys options)
  /\ (~ In "streamId" (keys options) -> keys query = keys options ++ ["streamId"])
  /\ (options = [] -> query = [("streamId", VStr streamId)]).
Proof.
  cbn zeta. split; [| split; [| split; [| split; [| split]]]].
  - unfold streams.
    destruct (request_calls net
                ("/v3/streams/contents?"
                   ++ querystring_stringify
                        (assign "streamId" (VStr streamId) options))%string
                RequestInit.empty w) as (before & E).
    eexists before, _. exact E.
  - apply lookup_assign_same.
  - intros key K. now apply lookup_assign_other.
  - apply assign_keys_present.
  - apply assign_keys_absent.
  - now intros ->.
Qed.

Lemma perform_request_call (op : Op) (w : World) :
  is_request op = true -> truthy (accessToken (this w)) = true ->
  List.length (calls (trace (perform net querystring_stringify op w)))
  = S (List.length (calls (trace w))).
Proof.
  intros R T.
  assert (K : forall url init,
             List.length (calls (trace (fst (request net url init w))))
             = S (List.length (calls (trace w)))).
  { intros url init.
    rewrite (request_without_refresh net url init w (or_introl T)),
      dispatch_calls, length_app. cbn. lia. }
  destruct op; try discriminate;
    unfold perform, profile, collections, subscriptions, streams; apply K.
Qed.

(** X12: while a token is held and [refreshAuthToken] is not called, every
    request and every endpoint method costs one call of [fetch], and the
    getters cost none. *)
Theorem one_call_per_request (ops : list Op) (w : World) :
  truthy (accessToken (this w)) = true ->
  forallb (fun op => negb (is_refresh op)) ops = true ->
  List.length (calls (trace (perform_all net querystring_stringify ops w)))
  = List.length (calls (trace w)) + List.length (filter is_request ops).
Proof.
  revert w. induction ops as [| op ops IH]; intros w T F.
  - cbn. lia.
  - cbn [forallb] in F. apply andb_prop in F as [R F].
    apply negb_true_iff in R.
    pose proof (perform_keeps_token net querystring_stringify op w R T) as K.
    change (perform_all net querystring_stringify (op :: ops) w)
      with (perform_all net querystring_stringify ops
              (perform net querystring_stringify op w)).
    rewrite IH; [| now rewrite K | exact F].
    cbn [filter]. destruct (is_request op) eqn:Q.
    + rewrite (perform_request_call op w Q T). cbn [List.length]. lia.
    + destruct op; try discriminate; cbn [perform]; lia.
Qed.

(** X13: while no token is held and no refresh obtains one, every endpoint
    method costs two calls of [fetch], the refresh and its own, and the
    client is left without a token. *)
Theorem two_calls_while_refresh_fails (ops : list Op) (w : World) :
  (forall n, obtained (net n) = None) ->
  truthy (accessToken (this w)) = false ->
  forallb is_endpoint ops = true ->
  let w' := perform_all net querystring_stringify ops w in
  List.length (calls (trace w'))
  = List.length (calls (trace w)) + 2 * List.length ops
  /\ accessToken (this w') = accessToken (this w).
Proof.
  intro O. revert w. induction ops as [| op ops IH]; intros w T F; cbn zeta.
  - cbn. split; [lia | reflexivity].
  - cbn [forallb] in F. apply andb_prop in F as [E F].
    destruct (endpoint_is_request op w E) as (path & P & N & _).
    change (perform_all net querystring_stringify (op :: ops) w)
      with (perform_all net querystring_stringify ops
              (perform net querystring_stringify op w)).
    assert (A : accessToken (this (perform net querystring_stringify op w))
                = accessToken (this w)).
    { rewrite P, (request_after_refresh net path RequestInit.empty w T N).
      unfold accessToken at 1. rewrite dispatch_options.
      change (accessToken (this (fst (refreshAuthToken net w)))
              = accessToken (this w)).
      now rewrite refreshAuthToken_token, O. }
    assert (L : List.length
                  (calls (trace (perform net querystring_stringify op w)))
                = S (S (List.length (calls (trace w))))).
    { rewrite P, (request_after_refresh net path RequestInit.empty w T N),
        dispatch_calls, refreshAuthToken_calls, !length_app. cbn. lia. }
    destruct (IH (perform net querystring_stringify op w)) as [IL IA];
      [now rewrite A | exact F |].
    cbn zeta in IL, IA. split.
    + rewrite IL, L. cbn [List.length]. lia.
    + now rewrite IA.
Qed.

End Endpoints.

(* ================================================================== *)
(** ** Rate limit headers that carry more than digits *)
(* ================================================================== *)

Lemma digits_numeral_rest (ds : list nat) (rest : string) (acc : Z) :
  Forall (fun d => (d < 10)%nat) ds ->
  starts_with_digit rest = false ->
  digits acc (numeral ds ++ rest)%string
  = fold_left (fun acc d => (10 * acc + Z.of_nat d)%Z) ds acc.
Proof.
  intros F R. revert acc.
  induction F as [| d ds D F IH]; intro acc;
    cbn [numeral String.append digits fold_left].
  - destruct rest as [| c rest]; [reflexivity |].
    cbn in *. now destruct (digit_of c).
  - rewrite (digit_of_digit_char d D). apply IH.
Qed.

(** X14: [ratelimit] reads the digits a header starts with and ignores what
    follows them: with a count header made of a numeral and then text that
    does not start with a digit, the count is the double nearest to the
    value of the numeral, which is that value when it is below 2^53. *)
Theorem ratelimit_reads_leading_digits (self : Feedly) (r : Response.t)
  (ds : list nat) (rest : string) :
  lastResponse self = Some r ->
  Headers.get (Response.headers r) "X-Ratelimit-Count"
  = VStr (numeral ds ++ rest)%string ->
  ds <> [] -> Forall (fun d => (d < 10)%nat) ds ->
  starts_with_digit rest = false ->
  exists reset,
    ratelimit self
    = Normal {| count := Number_of false (numeral_value ds); reset := reset |}
    /\ ((numeral_value ds < 2 ^ 53)%Z ->
        ratelimit self
        = Normal {| count := Int (numeral_value ds); reset := reset |}).
Proof.
  intros L H N F R. unfold ratelimit. rewrite L. cbn zeta. rewrite H.
  assert (P : parseInt10 (VStr (numeral ds ++ rest)%string)
              = Number_of false (numeral_value ds)).
  { destruct ds as [| d ds]; [congruence |].
    pose proof (digits_numeral_rest (d :: ds) rest 0 F R) as V.
    inversion F as [| ? ? D _]; subst.
    unfold numeral_value. rewrite <- V. clear V F N H.
    do 10 (destruct d as [| d]; [reflexivity |]). lia. }
  rewrite P. eexists. split; [reflexivity |].
  intro B. unfold Number_of, nearest_double.
  apply Z.ltb_lt in B. now rewrite B.
Qed.

(* ================================================================== *)
(** ** These properties on sample clients *)
(* ================================================================== *)

(** X1 on the base URL ["/"]: the client holds the empty string. *)
Lemma constructor_baseUrl_witness :
  constructor Example.net_down Sample.init_slash
  = Normal (fresh {| Internals.options :=
                       Options.with_baseUrl EmptyString
                         (Options.Object_assign Sample.init_slash);
                     Internals.lastResponse := None |})
  /\ baseUrl
       (this (fresh {| Internals.options :=
                         Options.with_baseUrl EmptyString
                           (Options.Object_assign Sample.init_slash);
                       Internals.lastResponse := None |}))
     = EmptyString.
Proof.
  split; [reflexivity |].
  exact (constructor_baseUrl Example.net_down Sample.init_slash _ eq_refl).
Defined.

(** X2 on the sample options: built with [refreshTokenInstant], the client
    has made the call and holds no token yet; [profile()] right away makes
    three calls in all; the token is there once the started call settles. *)
Lemma constructor_initial_state_witness :
  exists w,
    constructor Example.net_token Sample.init_instant = Normal w
    /\ List.length (calls (trace w)) = 1%nat
    /\ accessToken (this w) = VNull
    /\ lastResponse (this w) = None
    /\ List.length
         (calls (trace (fst (request Example.net_token "/v3/profile"
                               RequestInit.empty w))))
       = 3%nat
    /\ accessToken (this (fst (refreshAuthToken_settles (Example.net_token 0) w)))
       = VStr "abc123".
Proof.
  eexists. split; [reflexivity |].
  destruct (constructor_initial_state Example.net_token Sample.init_instant _
              eq_refl) as (_ & _ & A & L & _ & I).
  destruct (I eq_refl) as (T & C & S).
  split; [now rewrite T |]. split; [exact A |]. split; [exact L |].
  split; [exact (C "/v3/profile" RequestInit.empty eq_refl ltac:(discriminate)) |].
  rewrite S. reflexivity.
Defined.

(** X3 on the example options with an access token: one call. *)
Lemma supplied_token_spares_refresh_witness :
  calls (trace (fst (request Example.net_token "/v3/profile" RequestInit.empty
                       Example.client_with_token)))
  = [("https://cloud.feedly.com/v3/profile",
      default_init (VStr "YourSecr3tAccessT0ken"))].
Proof.
  exact (supplied_token_spares_refresh Example.net_token Example.init_with_token
           Example.client_with_token "/v3/profile" RequestInit.empty
           eq_refl eq_refl).
Defined.

(** X4 on the example client, the network being down: four calls for two
    requests, and no token. *)
Lemma failed_refresh_is_retried_witness :
  let w1 := fst (request Example.net_down "/v3/profile" RequestInit.empty
                   Example.client) in
  let w2 := fst (request Example.net_down "/v3/collections" RequestInit.empty w1) in
  accessToken (this w1) = VNull
  /\ map fst (calls (trace w2))
     = ["https://cloud.feedly.com/v3/auth/token";
        "https://cloud.feedly.com/v3/profile";
        "https://cloud.feedly.com/v3/auth/token";
        "https://cloud.feedly.com/v3/collections"].
Proof.
  cbn zeta.
  destruct (failed_refresh_is_retried Example.net_down
              "/v3/profile" "/v3/collections" RequestInit.empty RequestInit.empty
              Example.client eq_refl ltac:(discriminate) ltac:(discriminate)
              eq_refl) as (A & C1 & _ & C2).
  split; [exact A |]. cbn zeta in C2. rewrite C2, C1. reflexivity.
Defined.


(** X6 on an error body: no token, and the error logged is the TypeError. *)
Lemma refresh_rejects_body_without_token_witness :
  let w1 := fst (refreshAuthToken Sample.net_unauthorized Example.client) in
  accessToken (this w1) = VNull
  /\ lastResponse (this w1)
     = Some (Example.response
               (Some (VObj [("errorCode", VNum 401);
                            ("errorMessage", VStr "unauthorized")])))
  /\ exists call e,
       trace w1 = [call; ConsoleError "Failed to refresh token" e].
Proof.
  cbn zeta.
  destruct (refresh_rejects_body_without_token Sample.net_unauthorized
              Example.client
              (Example.response
                 (Some (VObj [("errorCode", VNum 401);
                              ("errorMessage", VStr "unauthorized")])))
              (VObj [("errorCode", VNum 401);
                     ("errorMessage", VStr "unauthorized")])
              eq_refl eq_refl) as (A & L & e & T & _).
  - intros fields token E. injection E as <-. discriminate.
  - split; [exact A |]. split; [exact L |]. eexists _, e. exact T.
Defined.

(** X7 on the example client, the network answering once. *)
Lemma ratelimit_after_failed_call_witness :
  ratelimit (this (fst (request Sample.net_once "/v3/profile" RequestInit.empty
                          Example.client)))
  = Normal {| count := Int 200; reset := Int 1700000000 |}
  /\ snd (request Sample.net_once "/v3/profile" RequestInit.empty Example.client)
     = Resolved None.
Proof.
  exact (ratelimit_after_failed_call Sample.net_once "/v3/profile"
           RequestInit.empty Example.client
           (Example.response (Some Example.token_body)) "ECONNRESET"
           eq_refl ltac:(discriminate) eq_refl eq_refl).
Defined.

(** X8 on the example client with a token. *)
Lemma result_is_on_record_witness :
  let w' := fst (request Example.net_token "/v3/profile" RequestInit.empty
                   Example.client_with_token) in
  lastResponse (this w') = Some (Example.response (Some Example.token_body))
  /\ ratelimit (this w') = Normal {| count := Int 200; reset := Int 1700000000 |}.
Proof.
  cbn zeta.
  destruct (result_is_on_record Example.net_token "/v3/profile"
              RequestInit.empty Example.client_with_token) as [H _].
  destruct (H {| response := Example.response (Some Example.token_body);
                 body := Example.token_body |} eq_refl) as (L & _ & R).
  split; [exact L | exact R].
Defined.

(** X9 on the example client, after two operations. *)
Lemma refresh_sends_the_refresh_token_witness :
  exists init,
    last (calls (trace (fst (refreshAuthToken Example.net_token
                               (perform_all Example.net_token Example.stringify
                                  [CallProfile; GetRatelimit] Example.client)))))
      (EmptyString, RequestInit.empty)
    = ("https://cloud.feedly.com/v3/auth/token", init)
    /\ RequestInit.body init
       = Some (RequestInit.JSON_stringify
                 (VObj [("refresh_token", VStr "YourSecr3tEnterpriseRefreshT0ken");
                        ("client_id", VStr "feedlydev");
                        ("client_secret", VStr "feedlydev");
                        ("grant_type", VStr "refresh_token")])).
Proof.
  pose proof (refresh_sends_the_refresh_token Example.net_token Example.stringify
                Example.init Example.client [CallProfile; GetRatelimit] eq_refl)
    as C.
  cbn zeta in C. rewrite C, last_last. eexists. split; reflexivity.
Defined.

(** X10 on the example client with a token: [collections()]. *)
Lemma endpoints_send_the_token_witness :
  exists before path,
    calls (trace (perform Example.net_token Example.stringify CallCollections
                    Example.client_with_token))
    = before
      ++ [(("https://cloud.feedly.com" ++ path)%string,
           {| RequestInit.method := None;
              RequestInit.headers :=
                Some [("Authorization", "OAuth YourSecr3tAccessT0ken")];
              RequestInit.body := None |})]
    /\ path = "/v3/collections"
    /\ before = [].
Proof.
  exact (endpoints_send_the_token Example.net_token Example.stringify
           CallCollections Example.client_with_token eq_refl).
Defined.

(** X11 on options that carry a [streamId] of their own. *)
Lemma streams_query_witness :
  assign "streamId" (VStr "user/1/category/global.all") Sample.stream_options
  = [("count", VNum 5); ("streamId", VStr "user/1/category/global.all")]
  /\ keys (assign "streamId" (VStr "user/1/category/global.all")
             Sample.stream_options)
     = keys Sample.stream_options.
Proof.
  split; [reflexivity |].
  destruct (streams_query Example.net_token Example.stringify
              "user/1/category/global.all" Sample.stream_options
              Example.client_with_token) as (_ & _ & _ & K & _).
  apply K. right. left. reflexivity.
Defined.

(** X12 on the example client with a token: three requests among five
    operations, three calls. *)
Lemma one_call_per_request_witness :
  List.length
    (calls (trace (perform_all Example.net_token Example.stringify
                     [CallProfile; GetRatelimit; CallSubscriptions;
                      GetAccessToken; CallRequest "/v3/tags" RequestInit.empty]
                     Example.client_with_token)))
  = 3%nat.
Proof.
  exact (one_call_per_request Example.net_token Example.stringify
           [CallProfile; GetRatelimit; CallSubscriptions; GetAccessToken;
            CallRequest "/v3/tags" RequestInit.empty]
           Example.client_with_token eq_refl eq_refl).
Defined.

(** X13 on the example client, the network being down: three endpoint
    calls, six calls of [fetch]. *)
Lemma two_calls_while_refresh_fails_witness :
  let w' := perform_all Example.net_down Example.stringify
              [CallProfile; CallCollections; CallStreams "feed/1" []]
              Example.client in
  List.length (calls (trace w')) = 6%nat
  /\ accessToken (this w') = VNull.
Proof.
  exact (two_calls_while_refresh_fails Example.net_down Example.stringify
           [CallProfile; CallCollections; CallStreams "feed/1" []]
           Example.client (fun _ => eq_refl) eq_refl eq_refl).
Defined.

(** X14 on the headers ["200 calls"] and ["3600s"]. *)
Lemma ratelimit_reads_leading_digits_witness :
  exists reset,
    ratelimit {| Internals.options := Options.Object_assign Example.init;
                 Internals.lastResponse := Some Sample.response_with_units |}
    = Normal {| count := Int 200; reset := reset |}.
Proof.
  destruct (ratelimit_reads_leading_digits
              {| Internals.options := Options.Object_assign Example.init;
                 Internals.lastResponse := Some Sample.response_with_units |}
              Sample.response_with_units [2; 0; 0]%nat " calls" eq_refl eq_refl)
    as (reset & _ & E).
  - discriminate.
  - repeat constructor.
  - reflexivity.
  - exists reset. apply E. reflexivity.
Defined.
